(** * schema-types: the schema builders, the introspection predicates and
    the validation engine of [src/index.ts], embedded as Rocq functions.

    Conventions of the embedding.

    - A JavaScript value is a [Value]; an object is the association list
      of its own enumerable string keys in the order of [Object.keys], an
      array is a dense list.
    - A schema is a [Schema]: a JavaScript object in schema position.
      A field is [None] when the property is absent.  The [type] field
      holds an arbitrary [Value], because [isSchemaType] inspects it
      dynamically; the other fields hold a value of the type their
      TypeScript interface declares, and [None] also stands for
      [undefined] there.  The two symbol-keyed, non-enumerable markers are
      the boolean fields [OPTIONAL] and [READONLY].
    - A JavaScript number is an abstract type with the operators the code
      applies to it ([NumberOps]); [util.inspect] and the [RegExp]
      constructor come from the host ([Runtime]).
    - A computation that may throw returns a [Result]. *)

From Stdlib Require Import String Ascii List Bool Arith ZArith Lia.
From Stdlib Require Import DecimalString.
Import ListNotations.
Open Scope string_scope.
Open Scope list_scope.

Set Implicit Arguments.
#[local] Set Warnings "-register-all".

(** Template literals concatenate strings. *)
Infix "+++" := String.append (right associativity, at level 60).

(** ** Exceptions *)

Inductive Error : Type :=
| TypeError
| SyntaxError
| PlainError (message : string).

Inductive Result (A : Type) : Type :=
| Return (a : A)
| Throw (e : Error).

Arguments Return {A} a.
Arguments Throw {A} e.

Definition bind {A B : Type} (r : Result A) (k : A -> Result B) : Result B :=
  match r with
  | Return a => k a
  | Throw e => Throw e
  end.

Notation "x <- r ;; k" := (bind r (fun x => k))
  (at level 61, r at next level, right associativity).

(** The computation ends normally. *)
Definition returns (A : Type) (r : Result A) : Prop := exists a, r = Return a.

(** [Array.prototype.flatMap] with a callback that may throw: the elements
    are visited in index order and the first exception escapes. *)
Section FlatMap.
Variables A B : Type.
Variable f : nat -> A -> Result (list B).

Fixpoint flatMapFrom (idx : nat) (l : list A) : Result (list B) :=
  match l with
  | [] => Return []
  | item :: rest =>
      here <- f idx item ;;
      there <- flatMapFrom (S idx) rest ;;
      Return (here ++ there)
  end.

Definition flatMap (l : list A) : Result (list B) := flatMapFrom 0 l.
End FlatMap.

(** [Array.prototype.map] with a callback that may throw. *)
Section MapM.
Variables A B : Type.
Variable f : A -> Result B.

Fixpoint mapM (l : list A) : Result (list B) :=
  match l with
  | [] => Return []
  | a :: rest =>
      b <- f a ;;
      bs <- mapM rest ;;
      Return (b :: bs)
  end.
End MapM.

(** Continuation-passing reads, so that the validator can recurse into
    what it reads: [getWith k d key o] is [k (o[key])], or [d] when the key
    is absent; [nthWith k d idx l] is [k (l[idx])], or [d] past the end. *)
Section ReadWith.
Variables A R : Type.
Variable k : A -> R.
Variable d : R.

Fixpoint getWith (key : string) (o : list (string * A)) : R :=
  match o with
  | [] => d
  | (k', a) :: rest => if String.eqb key k' then k a else getWith key rest
  end.

Fixpoint nthWith (idx : nat) (l : list A) {struct l} : R :=
  match l with
  | [] => d
  | a :: rest =>
      match idx with
      | O => k a
      | S idx' => nthWith idx' rest
      end
  end.
End ReadWith.

(** ** Validation issues *)

Inductive IssueType : Type :=
| INVALID_SCHEMA
| INVALID_TYPE
| INVALID_VALUE.

Module Issue.
Record t : Type := mk {
  type : IssueType;
  message : string;
  path : string
}.
End Issue.

Abbreviation ValidationIssue := Issue.t.

(** ** Values *)

Section Model.

Variable number : Type.

Inductive Value : Type :=
| VUndefined
| VNull
| VBoolean (b : bool)
| VNumber (n : number)
| VString (s : string)
| VBigInt (z : Z)
| VSymbol (description : string)
| VFunction (name : string)
| VArray (elements : list Value)
| VObject (entries : list (string * Value)).

Definition typeof (value : Value) : string :=
  match value with
  | VUndefined => "undefined"
  | VNull => "object"
  | VBoolean _ => "boolean"
  | VNumber _ => "number"
  | VString _ => "string"
  | VBigInt _ => "bigint"
  | VSymbol _ => "symbol"
  | VFunction _ => "function"
  | VArray _ => "object"
  | VObject _ => "object"
  end.

(** Property read on an association list: [o[key]], [None] for [undefined]. *)
Fixpoint get {A : Type} (key : string) (o : list (string * A)) : option A :=
  match o with
  | [] => None
  | (k, a) :: rest => if String.eqb key k then Some a else get key rest
  end.

(** [keysOf(value)], that is [Object.keys]. *)
Definition keysOf {A : Type} (o : list (string * A)) : list string :=
  map fst o.

(** [new Set(keys)]: insertion order, a key already present is not added
    again.  [has] is [Set.prototype.has]; [[...set]] is the list itself. *)
Definition has (set : list string) (key : string) : bool :=
  existsb (String.eqb key) set.

Fixpoint addAll (set : list string) (keys : list string) : list string :=
  match keys with
  | [] => set
  | key :: rest => addAll (if has set key then set else set ++ [key]) rest
  end.

Definition newSet (keys : list string) : list string := addAll [] keys.

(** [keys.join(', ')]. *)
Definition join (sep : string) (keys : list string) : string :=
  String.concat sep keys.

(** ** Schemas *)

Inductive Schema : Type := mkSchema {
  type : option Value;
  multipleOf : option number;
  maximum : option number;
  exclusiveMaximum : option number;
  minimum : option number;
  exclusiveMinimum : option number;
  maxLength : option number;
  minLength : option number;
  pattern : option string;
  items : option (Schema + list Schema);
  additionalProperties : option Schema;
  properties : option (list (string * Schema));
  required : option (list string);
  OPTIONAL : bool;
  READONLY : bool
}.

(** ** The host: numbers, [util.inspect], [RegExp] *)

(** The operators of the code on JavaScript numbers.  [num_of_nat n] is the
    number whose value is the non-negative integer [n] (the literal [0], a
    [length]); [num_toString] is the conversion of a template literal. *)
Class NumberOps : Type := {
  num_of_nat : nat -> number;
  num_rem : number -> number -> number;
  num_eq : number -> number -> bool;
  num_gt : number -> number -> bool;
  num_ge : number -> number -> bool;
  num_lt : number -> number -> bool;
  num_le : number -> number -> bool;
  num_toString : number -> string
}.

(** [inspect] is [util.inspect]; [RegExp p] is [new RegExp(p)]: [None] when
    the constructor throws a SyntaxError, otherwise the [test] method of the
    compiled expression. *)
Class Runtime : Type := {
  inspect : Value -> string;
  RegExp : string -> option (string -> bool)
}.

Context {ops : NumberOps} {rt : Runtime}.

(** ** Schema builders *)

(** The object literal [{}]. *)
Definition empty : Schema :=
  mkSchema None None None None None None None None None None None None None
           false false.

Definition withType (tag : string) (s : Schema) : Schema :=
  mkSchema (Some (VString tag)) (multipleOf s) (maximum s)
           (exclusiveMaximum s) (minimum s) (exclusiveMinimum s)
           (maxLength s) (minLength s) (pattern s) (items s)
           (additionalProperties s) (properties s) (required s)
           (OPTIONAL s) (READONLY s).

Record NumberOptions : Type := {
  opt_multipleOf : option number;
  opt_maximum : option number;
  opt_exclusiveMaximum : option number;
  opt_minimum : option number;
  opt_exclusiveMinimum : option number
}.

Record StringOptions : Type := {
  opt_maxLength : option number;
  opt_minLength : option number;
  opt_pattern : option string
}.

Definition noNumberOptions : NumberOptions :=
  Build_NumberOptions None None None None None.

Definition noStringOptions : StringOptions :=
  Build_StringOptions None None None.

(** The builders of [class T].  [number] and [string] spread their
    options and set the tag; [object] derives [required] and leaves it out
    when it is empty. *)
Definition T_any : Schema := empty.
Definition T_boolean : Schema := withType "boolean" empty.
Definition T_null : Schema := withType "null" empty.

Definition T_number (options : NumberOptions) : Schema :=
  mkSchema (Some (VString "number"))
           (opt_multipleOf options) (opt_maximum options)
           (opt_exclusiveMaximum options) (opt_minimum options)
           (opt_exclusiveMinimum options)
           None None None None None None None false false.

Definition T_string (options : StringOptions) : Schema :=
  mkSchema (Some (VString "string")) None None None None None
           (opt_maxLength options) (opt_minLength options)
           (opt_pattern options)
           None None None None false false.

Definition T_undefined : Schema := withType "undefined" empty.

Definition T_array (items : Schema) : Schema :=
  mkSchema (Some (VString "array")) None None None None None None None None
           (Some (inl items)) None None None false false.

Definition T_record (items : Schema) : Schema :=
  mkSchema (Some (VString "object")) None None None None None None None None
           None (Some items) None None false false.

(** [properties[key][OPTIONAL]]; the key always comes from
    [keysOf(properties)]. *)
Definition T_marked (properties : list (string * Schema)) (key : string)
  : bool :=
  match get key properties with
  | Some prop => OPTIONAL prop
  | None => false
  end.

Definition T_object (properties : list (string * Schema)) : Schema :=
  let required :=
    filter (fun key => negb (T_marked properties key)) (keysOf properties) in
  mkSchema (Some (VString "object")) None None None None None None None None
           None None (Some properties)
           (if (0 <? length required)%nat then Some required else None)
           false false.

Definition T_tuple (items : list Schema) : Schema :=
  mkSchema (Some (VString "array")) None None None None None None None None
           (Some (inr items)) None None None false false.

(** [{...item}]: the own enumerable properties, which the two markers
    are not. *)
Definition T_spread (item : Schema) : Schema :=
  mkSchema (type item) (multipleOf item) (maximum item)
           (exclusiveMaximum item) (minimum item) (exclusiveMinimum item)
           (maxLength item) (minLength item) (pattern item) (items item)
           (additionalProperties item) (properties item) (required item)
           false false.

(** [Object.defineProperty(o, OPTIONAL, {value: true, enumerable: false})]
    and the same for [READONLY]. *)
Definition T_defineOPTIONAL (o : Schema) : Schema :=
  mkSchema (type o) (multipleOf o) (maximum o)
           (exclusiveMaximum o) (minimum o) (exclusiveMinimum o)
           (maxLength o) (minLength o) (pattern o) (items o)
           (additionalProperties o) (properties o) (required o)
           true (READONLY o).

Definition T_defineREADONLY (o : Schema) : Schema :=
  mkSchema (type o) (multipleOf o) (maximum o)
           (exclusiveMaximum o) (minimum o) (exclusiveMinimum o)
           (maxLength o) (minLength o) (pattern o) (items o)
           (additionalProperties o) (properties o) (required o)
           (OPTIONAL o) true.

Definition T_optional (item : Schema) : Schema := T_defineOPTIONAL (T_spread item).
Definition T_readonly (item : Schema) : Schema := T_defineREADONLY (T_spread item).

(** ** Introspection predicates *)

(** [field === 'tag'] for a string literal. *)
Definition isString (field : option Value) (tag : string) : bool :=
  match field with
  | Some (VString s) => String.eqb s tag
  | _ => false
  end.

(** [isSchemaType] on an object: the tests [typeof value !== 'object'] and
    [value == null] of the source are passed by every [Schema]; the schema
    read from an absent field is [undefined] and fails them
    (see [validateRead]). *)
Definition isSchemaType (value : Schema) : bool :=
  match type value with
  | None => false
  | Some tag => String.eqb (typeof tag) "string"
  end.

Definition isBooleanType (value : Schema) : bool := isString (type value) "boolean".
Definition isNullType (value : Schema) : bool := isString (type value) "null".
Definition isNumberType (value : Schema) : bool := isString (type value) "number".
Definition isStringType (value : Schema) : bool := isString (type value) "string".
Definition isUndefinedType (value : Schema) : bool := isString (type value) "undefined".

(** [Array.isArray(value.items)]. *)
Definition itemsIsArray (value : Schema) : bool :=
  match items value with
  | Some (inr _) => true
  | _ => false
  end.

Definition isArrayType (value : Schema) : bool :=
  isString (type value) "array" && negb (itemsIsArray value).

Definition isRecordType (value : Schema) : bool :=
  isString (type value) "object" &&
  match additionalProperties value with
  | Some _ => true
  | None => false
  end.

Definition isObjectType (value : Schema) : bool := isString (type value) "object".

Definition isTupleType (value : Schema) : bool :=
  isString (type value) "array" && itemsIsArray value.

Definition isOptional (value : Schema) : bool := OPTIONAL value.
Definition isReadonly (value : Schema) : bool := READONLY value.

(** ** The validation engine *)

Definition invalidTypeIssue (expected : string) (value : Value) (path : string)
  : ValidationIssue :=
  Issue.mk INVALID_TYPE
    ("Invalid type, expected " +++ expected +++ ", got " +++ inspect value)
    path.

Definition invalidSchema (path : string) : ValidationIssue :=
  Issue.mk INVALID_SCHEMA "Invalid schema" path.

(** One [if (schema.c !== undefined && violated) issues.push(...)]. *)
Definition check (c : option number) (violated : number -> bool)
  (msg : number -> string) (path : string) : list ValidationIssue :=
  match c with
  | Some bound =>
      if violated bound then [Issue.mk INVALID_VALUE (msg bound) path] else []
  | None => []
  end.

Definition numberIssues (path : string) (schema : Schema) (value : number)
  : list ValidationIssue :=
  check (multipleOf schema)
    (fun m => negb (num_eq (num_rem value m) (num_of_nat 0)))
    (fun m => "Value must be a multiple of " +++ num_toString m) path
  ++ check (maximum schema) (fun m => num_gt value m)
    (fun m => "Value must be less than or equal to " +++ num_toString m
              +++ ", instead was " +++ num_toString value) path
  ++ check (exclusiveMaximum schema) (fun m => num_ge value m)
    (fun m => "Value must be strictly less than " +++ num_toString m
              +++ ", instead was " +++ num_toString value) path
  ++ check (minimum schema) (fun m => num_lt value m)
    (fun m => "Value must be greater than or equal to " +++ num_toString m
              +++ ", instead was " +++ num_toString value) path
  ++ check (exclusiveMinimum schema) (fun m => num_le value m)
    (fun m => "Value must be strictly greater than " +++ num_toString m
              +++ ", instead was " +++ num_toString value) path.

(** The string branch; [new RegExp(schema.pattern)] may throw. *)
Definition stringIssues (path : string) (schema : Schema) (value : string)
  : Result (list ValidationIssue) :=
  let length := num_of_nat (String.length value) in
  let sizes :=
    check (maxLength schema) (fun m => num_gt length m)
      (fun m => "String value must have a length no greater than "
                +++ num_toString m +++ ", instead was " +++ num_toString length)
      path
    ++ check (minLength schema) (fun m => num_lt length m)
      (fun m => "String value must have a length no less than "
                +++ num_toString m +++ ", instead was " +++ num_toString length)
      path in
  match pattern schema with
  | Some source =>
      match RegExp source with
      | None => Throw SyntaxError
      | Some test =>
          Return (sizes ++
                  if negb (test value)
                  then [Issue.mk INVALID_VALUE
                          ("String value must match pattern: " +++ source) path]
                  else [])
      end
  | None => Return sizes
  end.

(** [value[key]] on the entries of an object. *)
Definition member (entries : list (string * Value)) (key : string) : Value :=
  match get key entries with
  | Some v => v
  | None => VUndefined
  end.

Definition index (path : string) (idx : nat) : string :=
  path +++ "/" +++ num_toString (num_of_nat idx).

Definition child (path : string) (key : string) : string :=
  path +++ "/" +++ key.

Definition unexpectedKeys (path : string) (extraKeys : list string)
  : list ValidationIssue :=
  if (0 <? length extraKeys)%nat
  then [Issue.mk INVALID_TYPE ("Unexpected keys: " +++ join ", " extraKeys) path]
  else [].

Definition missingKeys (path : string) (missingRequiredKeys : list string)
  : list ValidationIssue :=
  if (0 <? length missingRequiredKeys)%nat
  then [Issue.mk INVALID_TYPE
          ("Missing required keys: " +++ join ", " missingRequiredKeys) path]
  else [].

Fixpoint validateWithPath (path : string) (schema : Schema) (value : Value)
  {struct schema} : Result (list ValidationIssue) :=
  if negb (isSchemaType schema) then
    Return [invalidSchema path]
  else if isBooleanType schema then
    Return (if String.eqb (typeof value) "boolean" then []
            else [invalidTypeIssue "boolean" value path])
  else if isNullType schema then
    Return (match value with
            | VNull => []
            | _ => [invalidTypeIssue "null" value path]
            end)
  else if isNumberType schema then
    match value with
    | VNumber n => Return (numberIssues path schema n)
    | _ => Return [invalidTypeIssue "number" value path]
    end
  else if isStringType schema then
    match value with
    | VString s => stringIssues path schema s
    | _ => Return [invalidTypeIssue "string" value path]
    end
  else if isUndefinedType schema then
    Return (if String.eqb (typeof value) "undefined" then []
            else [invalidTypeIssue "undefined" value path])
  else if isArrayType schema then
    match value with
    | VArray elements =>
        flatMap (fun idx item =>
                   match items schema with
                   | Some (inl itemSchema) =>
                       validateWithPath (index path idx) itemSchema item
                   | _ => Return [invalidSchema (index path idx)]
                   end) elements
    | _ => Return [invalidTypeIssue "array" value path]
    end
  else if isTupleType schema then
    match value with
    | VArray elements =>
        match items schema with
        | Some (inr itemSchemas) =>
            if negb (length elements =? length itemSchemas)%nat then
              Return [Issue.mk INVALID_TYPE
                        ("Expected " +++ num_toString (num_of_nat (length itemSchemas))
                         +++ " elements, got "
                         +++ num_toString (num_of_nat (length elements))
                         +++ " elements instead") path]
            else
              flatMap (fun idx item =>
                         nthWith (fun itemSchema =>
                                    validateWithPath (index path idx) itemSchema item)
                                 (Return [invalidSchema (index path idx)])
                                 idx itemSchemas) elements
        | _ => Return [] (* not reached: [isTupleType] holds *)
        end
    | _ => Return [invalidTypeIssue "tuple" value path]
    end
  else if isObjectType schema then
    match value with
    | VObject entries =>
        let valueKeys := newSet (keysOf entries) in
        match properties schema with
        | None => Throw TypeError
        | Some props =>
            let expectedKeys := newSet (keysOf props) in
            let requiredKeys :=
              newSet (match required schema with Some r => r | None => [] end) in
            let extraKeys :=
              newSet (filter (fun key => negb (has expectedKeys key)) valueKeys) in
            let missingRequiredKeys :=
              newSet (filter (fun key => negb (has valueKeys key)) requiredKeys) in
            children <-
              flatMap (fun _ key =>
                         if has expectedKeys key then
                           getWith (fun propSchema =>
                                      validateWithPath (child path key) propSchema
                                                       (member entries key))
                                   (Return [invalidSchema (child path key)])
                                   key props
                         else Return []) valueKeys ;;
            Return (unexpectedKeys path extraKeys
                    ++ missingKeys path missingRequiredKeys
                    ++ children)
        end
    | _ => Return [invalidTypeIssue "object" value path]
    end
  else
    Return [Issue.mk INVALID_SCHEMA "Unable to validate type" path].

Definition validate (schema : Schema) (value : Value)
  : Result (list ValidationIssue) :=
  validateWithPath "" schema value.

(** [validateWithPath(path, o.field, value)] for a field read that may be
    [undefined], which is not an object and fails [isSchemaType]. *)
Definition validateRead (path : string) (read : option Schema) (value : Value)
  : Result (list ValidationIssue) :=
  match read with
  | Some schema => validateWithPath path schema value
  | None => Return [invalidSchema path]
  end.

(** ** The code renderer *)

Fixpoint asCode (schema : Schema) : Result string :=
  if negb (isSchemaType schema) then Throw (PlainError "Invalid schema")
  else if isBooleanType schema then Return "boolean"
  else if isNullType schema then Return "null"
  else if isNumberType schema then Return "number"
  else if isStringType schema then Return "string"
  else if isUndefinedType schema then Return "undefined"
  else if isArrayType schema then
    inner <- match items schema with
             | Some (inl itemSchema) => asCode itemSchema
             | _ => Throw (PlainError "Invalid schema")
             end ;;
    Return ("Array<" +++ inner +++ ">")
  else if isTupleType schema then
    match items schema with
    | Some (inr itemSchemas) =>
        codes <- mapM asCode itemSchemas ;;
        Return ("[" +++ join ", " codes +++ "]")
    | _ => Return "[]" (* not reached: [isTupleType] holds *)
    end
  else if isRecordType schema then
    inner <- match additionalProperties schema with
             | Some valueSchema => asCode valueSchema
             | None => Throw (PlainError "Invalid schema")
             end ;;
    Return ("Record<string, " +++ inner +++ ">")
  else if isObjectType schema then
    match properties schema with
    | None => Throw TypeError
    | Some props =>
        let requiredProps :=
          newSet (match required schema with Some r => r | None => [] end) in
        let readonlyProps :=
          newSet (keysOf (filter (fun entry => isReadonly (snd entry)) props)) in
        rendered <-
          mapM (fun key =>
                  code <- getWith asCode (Throw (PlainError "Invalid schema"))
                                  key props ;;
                  Return ((if has readonlyProps key then "readonly " else "")
                          +++ key
                          +++ (if has requiredProps key then "" else "?")
                          +++ ": " +++ code))
               (keysOf props) ;;
        Return ("{" +++ join "; " rendered +++ "}")
    end
  else Throw (PlainError "Not implemented").

(** ** Vocabulary of the statements *)

(** The variant names of the schema model. *)
Definition knownTags : list string :=
  ["boolean"; "null"; "number"; "string"; "undefined"; "array"; "object"].

Definition knownTag (tag : string) : bool := has knownTags tag.

(** The nine variant predicates, and how many of them hold. *)
Definition variantPredicates (value : Schema) : list bool :=
  [isBooleanType value; isNullType value; isNumberType value;
   isStringType value; isUndefinedType value; isArrayType value;
   isTupleType value; isRecordType value; isObjectType value].

Definition variantCount (value : Schema) : nat :=
  length (filter (fun holds : bool => holds) (variantPredicates value)).

Definition fallback (path : string) : ValidationIssue :=
  Issue.mk INVALID_SCHEMA "Unable to validate type" path.

(** Schemas on which nothing the validator calls can throw: in the schema
    and in every schema below it (its [items], its property schemas), a
    [pattern] under the tag [string] is accepted by the [RegExp]
    constructor, and the tag [object] comes with a [properties] map. *)
Definition compiles (source : option string) : bool :=
  match source with
  | Some p => match RegExp p with Some _ => true | None => false end
  | None => true
  end.

Definition hasProperties (schema : Schema) : bool :=
  match properties schema with
  | Some _ => true
  | None => false
  end.

Fixpoint guarded (schema : Schema) : bool :=
  (if isStringType schema then compiles (pattern schema) else true)
  && (if isObjectType schema then hasProperties schema else true)
  && match items schema with
     | Some (inl itemSchema) => guarded itemSchema
     | Some (inr itemSchemas) => forallb guarded itemSchemas
     | None => true
     end
  && match properties schema with
     | Some props => forallb (fun entry => guarded (snd entry)) props
     | None => true
     end.

(** When each numeric constraint counts as violated. *)
Definition violatesMultipleOf (schema : Schema) (value : number) : bool :=
  match multipleOf schema with
  | Some m => negb (num_eq (num_rem value m) (num_of_nat 0))
  | None => false
  end.

Definition violatesMaximum (schema : Schema) (value : number) : bool :=
  match maximum schema with
  | Some m => num_gt value m
  | None => false
  end.

Definition violatesExclusiveMaximum (schema : Schema) (value : number) : bool :=
  match exclusiveMaximum schema with
  | Some m => num_ge value m
  | None => false
  end.

Definition violatesMinimum (schema : Schema) (value : number) : bool :=
  match minimum schema with
  | Some m => num_lt value m
  | None => false
  end.

Definition violatesExclusiveMinimum (schema : Schema) (value : number) : bool :=
  match exclusiveMinimum schema with
  | Some m => num_le value m
  | None => false
  end.

(** A segment of the issue list that holds one INVALID_VALUE issue at
    [path] when the constraint is violated, and nothing otherwise. *)
Definition reports (path : string) (violated : bool)
  (segment : list ValidationIssue) : Prop :=
  if violated
  then exists message, segment = [Issue.mk INVALID_VALUE message path]
  else segment = [].

Definition countTrue (flags : list bool) : nat :=
  length (filter (fun flag : bool => flag) flags).

(** The key sets of the object branch: the keys of the value that are not
    declared, the required keys that the value lacks, and the keys of the
    value that are declared, each in the iteration order of its source. *)
Definition extraKeysOf (props : list (string * Schema))
  (entries : list (string * Value)) : list string :=
  filter (fun key => negb (has (keysOf props) key)) (newSet (keysOf entries)).

Definition missingKeysOf (requiredKeys : list string)
  (entries : list (string * Value)) : list string :=
  filter (fun key => negb (has (keysOf entries) key)) (newSet requiredKeys).

Definition declaredKeysOf (props : list (string * Schema))
  (entries : list (string * Value)) : list string :=
  filter (fun key => has (keysOf props) key) (newSet (keysOf entries)).

(** The recursion of the object branch into the declared keys. *)
Definition recurse (path : string) (props : list (string * Schema))
  (entries : list (string * Value)) : Result (list ValidationIssue) :=
  flatMap (fun _ key =>
             validateRead (child path key) (get key props) (member entries key))
          (declaredKeysOf props entries).

(** One issue that lists [keys] when there are any. *)
Definition listing (path : string) (label : string) (keys : list string)
  : list ValidationIssue :=
  match keys with
  | [] => []
  | _ => [Issue.mk INVALID_TYPE (label +++ join ", " keys) path]
  end.

(** ** The entry points built on [validate] *)

Definition newline : string := String (ascii_of_nat 10) EmptyString.

(** One line of [formatIssues]: the message, then the path. *)
Definition formatIssue (issue : ValidationIssue) : string :=
  Issue.message issue +++ " (at " +++ Issue.path issue +++ ")".

Definition formatIssues (issues : list ValidationIssue) : string :=
  join newline (map formatIssue issues).

(** How [validateOrThrow] ends: normally, with an exception that escaped
    from [validate], or with the [TypeError] it builds itself, which
    carries the formatted issues as its message. *)
Inductive Completion (A : Type) : Type :=
| Normal (a : A)
| Escaped (e : Error)
| ThrownTypeError (message : string).

Arguments Normal {A} a.
Arguments Escaped {A} e.
Arguments ThrownTypeError {A} message.

Definition validateOrThrow (schema : Schema) (value : Value) : Completion unit :=
  match validate schema value with
  | Throw e => Escaped e
  | Return issues =>
      if (0 <? length issues)%nat
      then ThrownTypeError (formatIssues issues)
      else Normal tt
  end.

(** The function [is] of the source. *)
Definition is_ (schema : Schema) (value : Value) : Result bool :=
  issues <- validate schema value ;;
  Return (length issues =? 0)%nat.

(** ** Vocabulary of the further statements *)

(** An issue seen from a place [prefix] above the one it was found at. *)
Definition under (prefix : string) (issue : ValidationIssue) : ValidationIssue :=
  Issue.mk (Issue.type issue) (Issue.message issue) (prefix +++ Issue.path issue).

Definition relocate (prefix : string) (r : Result (list ValidationIssue))
  : Result (list ValidationIssue) :=
  match r with
  | Return issues => Return (map (under prefix) issues)
  | Throw e => Throw e
  end.

(** The values of the declared type [SchemaType]: the tag is one of the
    names, [items] is there under [array], one of [additionalProperties]
    and [properties] is there under [object], and every schema below is
    of the type again. *)
Definition primitiveTag (tag : string) : bool :=
  has ["boolean"; "null"; "number"; "string"; "undefined"] tag.

Fixpoint typed (schema : Schema) : bool :=
  match type schema with
  | Some (VString tag) =>
      if primitiveTag tag then true
      else if String.eqb tag "array" then
        match items schema with
        | Some (inl itemSchema) => typed itemSchema
        | Some (inr itemSchemas) => forallb typed itemSchemas
        | None => false
        end
      else if String.eqb tag "object" then
        match additionalProperties schema, properties schema with
        | None, None => false
        | child, props =>
            match child with
            | Some valueSchema => typed valueSchema
            | None => true
            end
            && match props with
               | Some declared => forallb (fun entry => typed (snd entry)) declared
               | None => true
               end
        end
      else false
  | _ => false
  end.

(** No issue blames the schema. *)
Definition blamesValue (issues : list ValidationIssue) : Prop :=
  Forall (fun issue => Issue.type issue <> INVALID_SCHEMA) issues.

End Model.

Arguments VUndefined {number}.
Arguments VNull {number}.
Arguments VBoolean {number} b.
Arguments VString {number} s.
Arguments VBigInt {number} z.
Arguments VSymbol {number} description.
Arguments VFunction {number} name.
Arguments empty {number}.
Arguments noNumberOptions {number}.
Arguments noStringOptions {number}.
Arguments T_any {number}.
Arguments T_boolean {number}.
Arguments T_null {number}.
Arguments T_undefined {number}.
Arguments Normal {A} a.
Arguments Escaped {A} e.
Arguments ThrownTypeError {A} message.

(** ** A host for the examples: the integers among the numbers

    The integers (and [NaN]) with the operators JavaScript has on them:
    [%] truncates towards zero and is [NaN] for a zero divisor, every
    comparison with [NaN] is false.  [-0] is not kept apart from [0]: the
    operators used here do not tell them apart. *)

Inductive Integer : Type :=
| NaN
| Int (z : Z).

Definition showZ (z : Z) : string := NilZero.string_of_int (Z.to_int z).

Definition compareWith (test : Z -> Z -> bool) (a b : Integer) : bool :=
  match a, b with
  | Int x, Int y => test x y
  | _, _ => false
  end.

#[export] Instance IntegerOps : NumberOps Integer := {
  num_of_nat n := Int (Z.of_nat n);
  num_rem a b :=
    match a, b with
    | Int x, Int y => if (y =? 0)%Z then NaN else Int (Z.rem x y)
    | _, _ => NaN
    end;
  num_eq := compareWith Z.eqb;
  num_gt := compareWith Z.gtb;
  num_ge := compareWith Z.geb;
  num_lt := compareWith Z.ltb;
  num_le := compareWith Z.leb;
  num_toString a :=
    match a with
    | NaN => "NaN"
    | Int z => showZ z
    end
}.

(** [util.inspect] on one line, as Node prints small values. *)
Fixpoint inspectInteger (value : Value Integer) : string :=
  match value with
  | VUndefined => "undefined"
  | VNull => "null"
  | VBoolean b => if b then "true" else "false"
  | VNumber n => num_toString n
  | VString s => "'" +++ s +++ "'"
  | VBigInt z => showZ z +++ "n"
  | VSymbol description => "Symbol(" +++ description +++ ")"
  | VFunction name => "[Function: " +++ name +++ "]"
  | VArray [] => "[]"
  | VArray elements => "[ " +++ join ", " (map inspectInteger elements) +++ " ]"
  | VObject [] => "{}"
  | VObject entries =>
      "{ " +++ join ", " (map (fun kv => fst kv +++ ": " +++ inspectInteger (snd kv))
                              entries) +++ " }"
  end.

(** The [RegExp] constructor on the patterns of the examples.  A pattern of
    letters and digits only has no metacharacter: it compiles, and [test]
    searches for it as a substring.  The pattern [(] is an unterminated
    group, which the constructor rejects with a SyntaxError.  Patterns with
    other metacharacters are not modelled and count as rejected. *)
Definition alphanumeric (c : ascii) : bool :=
  let n := nat_of_ascii c in
  ((48 <=? n) && (n <=? 57) || (65 <=? n) && (n <=? 90)
   || (97 <=? n) && (n <=? 122))%nat.

Fixpoint literal (source : string) : bool :=
  match source with
  | EmptyString => true
  | String c rest => alphanumeric c && literal rest
  end.

Definition contains (source value : string) : bool :=
  match String.index 0 source value with
  | Some _ => true
  | None => false
  end.

Definition RegExpLiteral (source : string) : option (string -> bool) :=
  if literal source then Some (contains source) else None.

#[export] Instance IntegerRuntime : Runtime Integer := {
  inspect := inspectInteger;
  RegExp := RegExpLiteral
}.

(** Schemas and values of the examples. *)
Definition bogus : Schema Integer :=
  mkSchema (Some (VString "bogus")) None None None None None None None None
           None None None None false false.

Definition patterned (source : string) : Schema Integer :=
  T_string (Build_StringOptions None None (Some source)).

Definition plainNumber : Schema Integer := T_number noNumberOptions.

Definition bounded : Schema Integer :=
  T_number (Build_NumberOptions (Some (Int 3)) (Some (Int 10)) None
                                (Some (Int 0)) None).

Definition person : Schema Integer :=
  T_object [("a", plainNumber); ("b", T_optional (patterned "abc"))].

Definition allOptional : Schema Integer :=
  T_object [("b", T_optional (patterned "abc"))].

(** * Properties *)

Section Properties.

Context {number : Type} {ops : NumberOps number} {rt : Runtime number}.

Implicit Types (schema S C : Schema number) (value v : Value number).
Implicit Types (path : string).

Lemma getWith_get (A R : Type) (k : A -> R) (d : R) key (o : list (string * A)) :
  getWith k d key o = match get key o with Some a => k a | None => d end.
Proof.
  induction o as [|[k' a] rest IH]; simpl; [reflexivity|].
  destruct (String.eqb key k'); [reflexivity | exact IH].
Qed.

Lemma nthWith_nth_error (A R : Type) (k : A -> R) (d : R) (l : list A) :
  forall idx,
    nthWith k d idx l = match nth_error l idx with Some a => k a | None => d end.
Proof.
  induction l as [|a rest IH]; intros [|idx]; simpl; try reflexivity.
  apply IH.
Qed.

Lemma flatMapFrom_ext (A B : Type) (f g : nat -> A -> Result (list B)) l :
  forall idx,
    (forall i item, f i item = g i item) ->
    flatMapFrom f idx l = flatMapFrom g idx l.
Proof.
  induction l as [|item rest IH]; intros idx E; simpl; [reflexivity|].
  rewrite E, (IH (S idx) E). reflexivity.
Qed.

Lemma flatMap_ext (A B : Type) (f g : nat -> A -> Result (list B)) l :
  (forall i item, f i item = g i item) -> flatMap f l = flatMap g l.
Proof. apply flatMapFrom_ext. Qed.

(** The validator unfolds along its definition. *)
Lemma validateWithPath_unfold path schema value :
  validateWithPath path schema value =
  if negb (isSchemaType schema) then Return [invalidSchema path]
  else if isBooleanType schema then
    Return (if String.eqb (typeof value) "boolean" then []
            else [invalidTypeIssue "boolean" value path])
  else if isNullType schema then
    Return (match value with
            | VNull => []
            | _ => [invalidTypeIssue "null" value path]
            end)
  else if isNumberType schema then
    match value with
    | VNumber n => Return (numberIssues path schema n)
    | _ => Return [invalidTypeIssue "number" value path]
    end
  else if isStringType schema then
    match value with
    | VString s => stringIssues path schema s
    | _ => Return [invalidTypeIssue "string" value path]
    end
  else if isUndefinedType schema then
    Return (if String.eqb (typeof value) "undefined" then []
            else [invalidTypeIssue "undefined" value path])
  else if isArrayType schema then
    match value with
    | VArray elements =>
        flatMap (fun idx item =>
                   match items schema with
                   | Some (inl itemSchema) =>
                       validateWithPath (index path idx) itemSchema item
                   | _ => Return [invalidSchema (index path idx)]
                   end) elements
    | _ => Return [invalidTypeIssue "array" value path]
    end
  else if isTupleType schema then
    match value with
    | VArray elements =>
        match items schema with
        | Some (inr itemSchemas) =>
            if negb (length elements =? length itemSchemas)%nat then
              Return [Issue.mk INVALID_TYPE
                        ("Expected " +++ num_toString (num_of_nat (length itemSchemas))
                         +++ " elements, got "
                         +++ num_toString (num_of_nat (length elements))
                         +++ " elements instead") path]
            else
              flatMap (fun idx item =>
                         validateRead (index path idx)
                                      (nth_error itemSchemas idx) item) elements
        | _ => Return []
        end
    | _ => Return [invalidTypeIssue "tuple" value path]
    end
  else if isObjectType schema then
    match value with
    | VObject entries =>
        let valueKeys := newSet (keysOf entries) in
        match properties schema with
        | None => Throw TypeError
        | Some props =>
            let expectedKeys := newSet (keysOf props) in
            let requiredKeys :=
              newSet (match required schema with Some r => r | None => [] end) in
            let extraKeys :=
              newSet (filter (fun key => negb (has expectedKeys key)) valueKeys) in
            let missingRequiredKeys :=
              newSet (filter (fun key => negb (has valueKeys key)) requiredKeys) in
            children <-
              flatMap (fun _ key =>
                         if has expectedKeys key then
                           validateRead (child path key) (get key props)
                                        (member entries key)
                         else Return []) valueKeys ;;
            Return (unexpectedKeys path extraKeys
                    ++ missingKeys path missingRequiredKeys
                    ++ children)
        end
    | _ => Return [invalidTypeIssue "object" value path]
    end
  else Return [fallback path].
Proof.
  destruct schema as [tag m1 m2 m3 m4 m5 l1 l2 pat its extra declared req o r].
  simpl.
  repeat match goal with
         | |- context [if ?b then _ else _] => destruct b; try reflexivity
         end.
  all: destruct value; try reflexivity.
  - destruct its as [[single|itemSchemas]|]; try reflexivity.
    destruct (negb _); [reflexivity|].
    apply flatMap_ext. intros idx item.
    rewrite nthWith_nth_error. reflexivity.
  - destruct declared as [props|]; [|reflexivity].
    f_equal. apply flatMap_ext. intros _ key.
    rewrite getWith_get. reflexivity.
Qed.

(** The validator does not read the markers of the schema it is given. *)
Lemma validateWithPath_spread path S value :
  validateWithPath path (T_spread S) value = validateWithPath path S value.
Proof. destruct S; reflexivity. Qed.

Lemma validateWithPath_defineOPTIONAL path S value :
  validateWithPath path (T_defineOPTIONAL S) value = validateWithPath path S value.
Proof. destruct S; reflexivity. Qed.

Lemma validateWithPath_defineREADONLY path S value :
  validateWithPath path (T_defineREADONLY S) value = validateWithPath path S value.
Proof. destruct S; reflexivity. Qed.

(** ** Sets of keys *)

Lemma has_In set key : has set key = true <-> In key set.
Proof.
  unfold has. rewrite existsb_exists. split.
  - intros [k [Hin E]]. apply String.eqb_eq in E. now subst.
  - intros Hin. exists key. split; [assumption | apply String.eqb_refl].
Qed.

Lemma has_app set1 set2 key : has (set1 ++ set2) key = has set1 key || has set2 key.
Proof. apply existsb_app. Qed.

Lemma has_addAll keys : forall set key,
  has (addAll set keys) key = has set key || has keys key.
Proof.
  induction keys as [|k rest IH]; intros set key; simpl.
  - now rewrite orb_false_r.
  - rewrite IH. destruct (has set k) eqn:Hk.
    + destruct (String.eqb_spec key k) as [->|_]; simpl; [|reflexivity].
      now rewrite Hk.
    + rewrite has_app. simpl. rewrite orb_false_r.
      now rewrite orb_assoc.
Qed.

Lemma has_newSet keys key : has (newSet keys) key = has keys key.
Proof. unfold newSet. now rewrite has_addAll. Qed.

Lemma addAll_NoDup keys : forall set,
  NoDup (set ++ keys) -> addAll set keys = set ++ keys.
Proof.
  induction keys as [|k rest IH]; intros set Hnd; simpl.
  - now rewrite app_nil_r.
  - assert (Hk : has set k = false).
    { destruct (has set k) eqn:E; [|reflexivity].
      apply has_In in E. apply NoDup_remove_2 in Hnd.
      exfalso. apply Hnd. apply in_or_app. now left. }
    rewrite Hk, IH, <- app_assoc; [reflexivity|].
    now rewrite <- app_assoc.
Qed.

Lemma newSet_NoDup_id keys : NoDup keys -> newSet keys = keys.
Proof. intros Hnd. unfold newSet. now rewrite addAll_NoDup. Qed.

Lemma NoDup_addAll keys : forall set, NoDup set -> NoDup (addAll set keys).
Proof.
  induction keys as [|k rest IH]; intros set Hnd; simpl; [assumption|].
  apply IH. destruct (has set k) eqn:E; [assumption|].
  apply NoDup_app; [assumption | repeat constructor; intros [] |].
  intros x Hx [<-|[]].
  apply has_In in Hx. congruence.
Qed.

Lemma NoDup_newSet keys : NoDup (newSet keys).
Proof. apply NoDup_addAll. constructor. Qed.

Lemma newSet_filter (test : string -> bool) keys :
  newSet (filter test (newSet keys)) = filter test (newSet keys).
Proof. apply newSet_NoDup_id, NoDup_filter, NoDup_newSet. Qed.


(** ** Tags *)

Lemma isSchemaType_tag schema :
  isSchemaType schema = true <-> exists tag, type schema = Some (VString tag).
Proof.
  unfold isSchemaType. split.
  - destruct (type schema) as [[]|]; try discriminate. intros _. now eexists.
  - intros [tag ->]. reflexivity.
Qed.

Lemma unknown_tag tag :
  knownTag tag = false ->
  String.eqb tag "boolean" = false /\ String.eqb tag "null" = false /\
  String.eqb tag "number" = false /\ String.eqb tag "string" = false /\
  String.eqb tag "undefined" = false /\ String.eqb tag "array" = false /\
  String.eqb tag "object" = false.
Proof.
  unfold knownTag, has, knownTags. simpl. intros H.
  repeat (apply orb_false_elim in H; destruct H as [? H]).
  repeat split; assumption.
Qed.

(** Case analysis on a tag: one case for each known name, one for the rest. *)
Ltac tag_cases tag :=
  let known_or_not name :=
    (destruct (String.eqb_spec tag name) as [->|?]) in
  known_or_not "boolean"; [|
  known_or_not "null"; [|
  known_or_not "number"; [|
  known_or_not "string"; [|
  known_or_not "undefined"; [|
  known_or_not "array"; [|
  known_or_not "object"]]]]]].

Lemma isString_true (field : option (Value number)) tag :
  isString field tag = true -> field = Some (VString tag).
Proof.
  destruct field as [[]|]; simpl; try discriminate.
  intros E. apply String.eqb_eq in E. now subst.
Qed.

(** ** The object branch *)

Lemma bind_Return (A : Type) (r : Result A) : (x <- r ;; Return x) = r.
Proof. destruct r; reflexivity. Qed.

Lemma flatMapFrom_filter (A B : Type) (test : A -> bool)
  (g : A -> Result (list B)) l :
  forall i j,
    flatMapFrom (fun _ a => if test a then g a else Return []) i l =
    flatMapFrom (fun _ a => g a) j (filter test l).
Proof.
  induction l as [|a rest IH]; intros i j; simpl; [reflexivity|].
  destruct (test a); simpl.
  - now rewrite (IH (S i) (S j)).
  - rewrite (IH (S i) j). apply bind_Return.
Qed.

Lemma listing_unexpected path keys :
  unexpectedKeys path keys = listing path "Unexpected keys: " keys.
Proof. destruct keys; reflexivity. Qed.

Lemma listing_missing path keys :
  missingKeys path keys = listing path "Missing required keys: " keys.
Proof. destruct keys; reflexivity. Qed.

Lemma filter_has_newSet (keys l : list string) (wrap : bool -> bool) :
  filter (fun key => wrap (has (newSet keys) key)) l =
  filter (fun key => wrap (has keys key)) l.
Proof. apply filter_ext. intros key. now rewrite has_newSet. Qed.

(** The object branch on a schema with a [properties] map. *)
Lemma validate_object path schema props (entries : list (string * Value number)) :
  isObjectType schema = true ->
  properties schema = Some props ->
  validateWithPath path schema (VObject entries) =
  (children <- recurse path props entries ;;
   Return (listing path "Unexpected keys: " (extraKeysOf props entries)
           ++ listing path "Missing required keys: "
                (missingKeysOf (match required schema with
                                | Some r => r
                                | None => []
                                end) entries)
           ++ children)).
Proof.
  intros Hobject Hprops.
  assert (Htag := isString_true _ _ Hobject).
  rewrite validateWithPath_unfold.
  unfold isSchemaType, isBooleanType, isNullType, isNumberType, isStringType,
    isUndefinedType, isArrayType, isTupleType, isObjectType.
  rewrite Htag, Hprops. cbn -[newSet flatMap].
  rewrite newSet_filter.
  rewrite (filter_has_newSet (keysOf props) _ negb).
  rewrite newSet_filter.
  rewrite (filter_has_newSet (keysOf entries) _ negb).
  rewrite listing_unexpected, listing_missing.
  unfold recurse, declaredKeysOf, flatMap.
  rewrite <- (flatMapFrom_filter (fun key => has (keysOf props) key)
                (fun key => validateRead (child path key) (get key props)
                                         (member entries key)) _ 0 0).
  f_equal. apply flatMapFrom_ext. intros _ key. now rewrite has_newSet.
Qed.

Lemma get_declared (A : Type) (o : list (string * A)) key :
  In key (keysOf o) <-> exists a, get key o = Some a.
Proof.
  induction o as [|[k a] rest IH]; simpl.
  - split; [intros [] | intros [a E]; discriminate].
  - destruct (String.eqb_spec key k) as [->|Hneq].
    + split; [intros _; now exists a | intros _; now left].
    + rewrite <- IH. split; [intros [E|H]; [congruence | exact H] | now right].
Qed.

Lemma get_In (A : Type) (o : list (string * A)) key a :
  get key o = Some a -> exists k, In (k, a) o.
Proof.
  induction o as [|[k' a'] rest IH]; [discriminate|].
  simpl. destruct (String.eqb key k').
  - intros E. injection E as ->. exists k'. now left.
  - intros E. destruct (IH E) as [k Hk]. exists k. now right.
Qed.

(** ** Records *)

(** C1 (the code departs from the claim).  A record schema passes
    [isObjectType], the validator has no branch for [isRecordType], and
    the object branch calls [keysOf] on the [properties] that a record
    schema does not have: for every schema tagged [object] that carries
    [additionalProperties] and no [properties], [record(C)] among them,
    and for every object value, validation throws a TypeError instead of
    visiting the keys of the value. *)
Theorem validate_record_throws schema C (entries : list (string * Value number))
  path :
  type schema = Some (VString "object") ->
  additionalProperties schema = Some C ->
  properties schema = None ->
  isRecordType schema = true /\
  isObjectType schema = true /\
  validateWithPath path schema (VObject entries) = Throw TypeError.
Proof.
  intros Htag Hchild Hprops.
  unfold isRecordType, isObjectType. rewrite Htag, Hchild.
  repeat split.
  rewrite validateWithPath_unfold.
  unfold isSchemaType, isBooleanType, isNullType, isNumberType, isStringType,
    isUndefinedType, isArrayType, isTupleType, isObjectType.
  rewrite Htag, Hprops. reflexivity.
Qed.

(** ** The schema without a tag *)

(** C6.  [any()] is the empty object: it has no [type], fails
    [isSchemaType], and every value validated against it gets the one
    issue INVALID_SCHEMA, "Invalid schema", at the root path. *)
Theorem validate_any value :
  isSchemaType (@T_any number) = false /\
  validate T_any value = Return [Issue.mk INVALID_SCHEMA "Invalid schema" ""].
Proof. split; reflexivity. Qed.

(** C5 (amended).  [isSchemaType] looks only at whether [type] is a
    string: it returns false exactly when the field is absent or not a
    string, and accepts a string outside the known names.  Validation of
    such a schema, [{type: 'bogus'}] for one, goes through every variant
    test and ends in the last line of the validator, with the one issue
    INVALID_SCHEMA, "Unable to validate type". *)
Theorem isSchemaType_accepts_any_string schema :
  (isSchemaType schema = false <->
   forall tag, type schema <> Some (VString tag)) /\
  (forall tag,
     type schema = Some (VString tag) -> knownTag tag = false ->
     isSchemaType schema = true /\
     forall path value,
       validateWithPath path schema value = Return [fallback path]).
Proof.
  split.
  - split.
    + intros H tag E. apply not_true_iff_false in H. apply H.
      apply isSchemaType_tag. now exists tag.
    + intros H. apply not_true_iff_false. intros Hs.
      apply isSchemaType_tag in Hs. destruct Hs as [tag E]. exact (H tag E).
  - intros tag E Hunknown.
    assert (Hs : isSchemaType schema = true)
      by (apply isSchemaType_tag; now exists tag).
    split; [exact Hs|]. intros path value.
    rewrite validateWithPath_unfold, Hs.
    apply unknown_tag in Hunknown.
    destruct Hunknown as (Hb & Hn & Hnum & Hstr & Hu & Ha & Ho).
    unfold isBooleanType, isNullType, isNumberType, isStringType,
      isUndefinedType, isArrayType, isTupleType, isObjectType.
    rewrite E. simpl. rewrite Hb, Hn, Hnum, Hstr, Hu, Ha, Ho. reflexivity.
Qed.

(** C4 (amended).  A value that [isSchemaType] accepts has a string tag.
    When the tag is one of the seven known names and the value does not
    declare [additionalProperties] under the tag [object], exactly one of
    the nine variant predicates holds; when the tag is any other string,
    none of them holds. *)
Theorem variant_predicates_by_tag schema :
  isSchemaType schema = true ->
  exists tag,
    type schema = Some (VString tag) /\
    (knownTag tag = true -> isRecordType schema = false ->
     variantCount schema = 1%nat) /\
    (knownTag tag = false -> variantCount schema = 0%nat).
Proof.
  intros Hs. apply isSchemaType_tag in Hs. destruct Hs as [tag E].
  exists tag. split; [exact E|].
  unfold variantCount, variantPredicates, isBooleanType, isNullType,
    isNumberType, isStringType, isUndefinedType, isArrayType, isTupleType,
    isRecordType, isObjectType, itemsIsArray.
  rewrite E. split.
  - intros Hknown. tag_cases tag; simpl;
      try (destruct (items schema) as [[?|?]|]; reflexivity);
      try (intros ->; reflexivity).
    assert (Hunknown : knownTag tag = false).
    { unfold knownTag, has, knownTags. simpl.
      repeat match goal with
             | H : tag <> _ |- _ => apply String.eqb_neq in H; rewrite H; clear H
             end.
      reflexivity. }
    congruence.
  - intros Hunknown. apply unknown_tag in Hunknown.
    destruct Hunknown as (Hb & Hn & Hnum & Hstr & Hu & Ha & Ho).
    simpl. rewrite Hb, Hn, Hnum, Hstr, Hu, Ha, Ho. reflexivity.
Qed.

(** ** Numbers *)

Lemma check_reports (c : option number) violated msg path :
  reports path (match c with Some bound => violated bound | None => false end)
          (check c violated msg path)
  /\ length (check c violated msg path) =
     countTrue [match c with Some bound => violated bound | None => false end].
Proof.
  unfold reports, check, countTrue.
  destruct c as [bound|]; [|split; reflexivity].
  destruct (violated bound); split; try reflexivity. now eexists.
Qed.

(** C7.  On a number schema a numeric value gets one segment of issues for
    each of the five constraints, in the order multipleOf, maximum,
    exclusiveMaximum, minimum, exclusiveMinimum: a segment holds one
    INVALID_VALUE issue at the current path when its constraint is present
    and violated ([value % multipleOf !== 0], [>], [>=], [<], [<=]) and is
    empty otherwise, whatever the other constraints do.  A value that is
    not a number gets the one INVALID_TYPE issue and nothing else. *)
Theorem number_constraints_independent schema path :
  isNumberType schema = true ->
  (forall n,
     exists multiple above aboveExclusive below belowExclusive,
       validateWithPath path schema (VNumber n) =
         Return (multiple ++ above ++ aboveExclusive ++ below ++ belowExclusive) /\
       reports path (violatesMultipleOf schema n) multiple /\
       reports path (violatesMaximum schema n) above /\
       reports path (violatesExclusiveMaximum schema n) aboveExclusive /\
       reports path (violatesMinimum schema n) below /\
       reports path (violatesExclusiveMinimum schema n) belowExclusive /\
       length (multiple ++ above ++ aboveExclusive ++ below ++ belowExclusive) =
         countTrue [violatesMultipleOf schema n; violatesMaximum schema n;
                    violatesExclusiveMaximum schema n; violatesMinimum schema n;
                    violatesExclusiveMinimum schema n]) /\
  (forall value,
     typeof value <> "number" ->
     validateWithPath path schema value =
       Return [invalidTypeIssue "number" value path] /\
     Issue.type (invalidTypeIssue "number" value path) = INVALID_TYPE).
Proof.
  intros Hnumber. assert (Htag := isString_true _ _ Hnumber).
  assert (Hstep : forall value,
             validateWithPath path schema value =
             match value with
             | VNumber n => Return (numberIssues path schema n)
             | _ => Return [invalidTypeIssue "number" value path]
             end).
  { intros value. rewrite validateWithPath_unfold.
    unfold isSchemaType, isBooleanType, isNullType, isNumberType.
    rewrite Htag. reflexivity. }
  split.
  - intros n. rewrite Hstep. unfold numberIssues.
    do 5 eexists. split; [reflexivity|].
    unfold violatesMultipleOf, violatesMaximum, violatesExclusiveMaximum,
      violatesMinimum, violatesExclusiveMinimum.
    repeat split; try apply check_reports.
    rewrite !length_app.
    repeat match goal with
           | |- context [length (check ?c ?v ?m ?p)] =>
               rewrite (proj2 (check_reports c v m p))
           end.
    unfold countTrue. simpl.
    repeat match goal with
           | |- context [match ?c with Some _ => _ | None => _ end] =>
               destruct c
           | |- context [if ?b then _ else _] => destruct b
           end; reflexivity.
  - intros value Hvalue. rewrite Hstep. split; [|reflexivity].
    destruct value; try reflexivity. now elim Hvalue.
Qed.

(** ** Objects with properties *)

Lemma filter_nonempty (A : Type) (test : A -> bool) (l : list A) :
  filter test l <> [] <-> exists a, In a l /\ test a = true.
Proof.
  split.
  - destruct (filter test l) as [|a rest] eqn:E; [congruence|].
    intros _. exists a. apply filter_In. rewrite E. now left.
  - intros [a Ha] E. apply filter_In in Ha. rewrite E in Ha. contradiction.
Qed.

Lemma In_newSet keys key : In key (newSet keys) <-> In key keys.
Proof. rewrite <- !has_In. now rewrite has_newSet. Qed.

Lemma not_has_In set key : negb (has set key) = true <-> ~ In key set.
Proof.
  rewrite negb_true_iff, <- not_true_iff_false. now rewrite has_In.
Qed.

(** C8.  On a schema tagged [object] with a [properties] map, a value
    that is a true object gets, in this order: one INVALID_TYPE issue
    "Unexpected keys: ..." listing, comma-joined in the order of the
    value's keys, the keys that are not declared, when there is one; one
    INVALID_TYPE issue "Missing required keys: ..." when a required key is
    not a key of the value; and the issues of the recursion, at
    [path/key], into the keys of the value that are declared, in the
    order of the value's keys.  An exception of the recursion escapes. *)
Theorem validate_object_with_properties path schema props
  (entries : list (string * Value number)) :
  isObjectType schema = true ->
  properties schema = Some props ->
  let requiredKeys := match required schema with Some r => r | None => [] end in
  validateWithPath path schema (VObject entries) =
    (children <- recurse path props entries ;;
     Return (listing path "Unexpected keys: " (extraKeysOf props entries)
             ++ listing path "Missing required keys: "
                  (missingKeysOf requiredKeys entries)
             ++ children)) /\
  (extraKeysOf props entries <> [] <->
   exists key, In key (keysOf entries) /\ ~ In key (keysOf props)) /\
  (missingKeysOf requiredKeys entries <> [] <->
   exists key, In key requiredKeys /\ ~ In key (keysOf entries)) /\
  (forall key,
     In key (declaredKeysOf props entries) <->
     In key (keysOf entries) /\ In key (keysOf props)) /\
  (forall key,
     In key (declaredKeysOf props entries) ->
     exists propSchema,
       get key props = Some propSchema /\
       validateRead (child path key) (get key props) (member entries key) =
       validateWithPath (child path key) propSchema (member entries key)).
Proof.
  intros Hobject Hprops requiredKeys.
  split; [now apply validate_object|].
  unfold extraKeysOf, missingKeysOf, declaredKeysOf.
  repeat split.
  - intros H. apply filter_nonempty in H. destruct H as [key [Hin Hnot]].
    exists key. now rewrite <- In_newSet, <- not_has_In.
  - intros [key [Hin Hnot]]. apply filter_nonempty. exists key.
    now rewrite In_newSet, not_has_In.
  - intros H. apply filter_nonempty in H. destruct H as [key [Hin Hnot]].
    exists key. now rewrite <- In_newSet, <- not_has_In.
  - intros [key [Hin Hnot]]. apply filter_nonempty. exists key.
    now rewrite In_newSet, not_has_In.
  - apply filter_In in H. now rewrite <- In_newSet.
  - apply filter_In in H. now rewrite <- has_In.
  - intros [Hvalue Hdeclared]. apply filter_In.
    now rewrite In_newSet, has_In.
  - intros key H. apply filter_In in H. destruct H as [_ H].
    apply has_In, get_declared in H. destruct H as [propSchema E].
    exists propSchema. rewrite E. split; reflexivity.
Qed.

(** C9.  [object(P)] stores as [required] the keys of [P], in the order
    of [P], whose property schema does not carry the optional marker, and
    leaves the field out when there is none.  Validation reads the stored
    field and takes a missing one as the empty set: no key is reported
    missing. *)
Theorem object_required_set (props : list (string * Schema number)) :
  let requiredKeys :=
    filter (fun key => negb (T_marked props key)) (keysOf props) in
  required (T_object props) =
    match requiredKeys with [] => None | _ => Some requiredKeys end /\
  (forall key,
     In key requiredKeys <->
     exists prop, get key props = Some prop /\ isOptional prop = false) /\
  (NoDup (keysOf props) ->
   requiredKeys =
   keysOf (filter (fun entry => negb (isOptional (snd entry))) props)) /\
  (forall schema declared path (entries : list (string * Value number)),
     isObjectType schema = true ->
     properties schema = Some declared ->
     required schema = None ->
     missingKeysOf [] entries = [] /\
     validateWithPath path schema (VObject entries) =
       (children <- recurse path declared entries ;;
        Return (listing path "Unexpected keys: " (extraKeysOf declared entries)
                ++ children))).
Proof.
  intros requiredKeys. split; [|split; [split|split]].
  - unfold T_object. simpl. fold requiredKeys. now destruct requiredKeys.
  - intros H. apply filter_In in H. destruct H as [Hin Hmark].
    apply get_declared in Hin. destruct Hin as [prop E]. exists prop.
    unfold T_marked in Hmark. rewrite E in Hmark.
    split; [exact E | now apply negb_true_iff].
  - intros [prop [E Hmark]]. apply filter_In. split.
    + apply get_declared. now exists prop.
    + unfold T_marked. rewrite E. now apply negb_true_iff.
  - subst requiredKeys. unfold keysOf.
    induction props as [|[k prop] rest IH]; intros Hnd; [reflexivity|].
    simpl in Hnd. inversion Hnd as [|? ? Hfresh Hrest]; subst.
    assert (Hext : forall key, In key (map fst rest) ->
                     T_marked ((k, prop) :: rest) key = T_marked rest key).
    { intros key Hin. unfold T_marked. simpl.
      destruct (String.eqb_spec key k) as [->|_]; [contradiction | reflexivity]. }
    simpl. unfold T_marked at 1. simpl. rewrite String.eqb_refl.
    unfold isOptional in *.
    rewrite (filter_ext_in _ (fun key => negb (T_marked rest key)))
      by (intros key Hin; now rewrite Hext).
    rewrite (IH Hrest). now destruct (OPTIONAL prop).
  - intros schema declared path entries Hobject Hprops Hrequired.
    split; [reflexivity|].
    rewrite (validate_object path _ entries Hobject Hprops), Hrequired.
    reflexivity.
Qed.

(** ** Exceptions *)

(** Induction on a schema, with the schemas below it. *)
Lemma Schema_induction (P : Schema number -> Prop) :
  (forall schema,
     (forall itemSchema, items schema = Some (inl itemSchema) -> P itemSchema) ->
     (forall itemSchemas, items schema = Some (inr itemSchemas) ->
                          Forall P itemSchemas) ->
     (forall props, properties schema = Some props ->
                    Forall (fun entry => P (snd entry)) props) ->
     P schema) ->
  forall schema, P schema.
Proof.
  intros step. fix IH 1.
  intros [tag m1 m2 m3 m4 m5 l1 l2 pat its extra props req o r].
  apply step; simpl.
  - intros itemSchema E. destruct its as [[single|many]|]; try discriminate.
    injection E as <-. apply IH.
  - intros itemSchemas E. destruct its as [[single|many]|]; try discriminate.
    injection E as <-. clear -IH.
    induction many as [|first rest IHrest]; constructor; [apply IH | exact IHrest].
  - intros declared E. destruct props as [entries|]; try discriminate.
    injection E as <-. clear -IH.
    induction entries as [|[key prop] rest IHrest]; constructor;
      [apply IH | exact IHrest].
Qed.

Lemma guarded_unfold schema :
  guarded schema =
  (if isStringType schema then compiles (pattern schema) else true)
  && (if isObjectType schema then hasProperties schema else true)
  && match items schema with
     | Some (inl itemSchema) => guarded itemSchema
     | Some (inr itemSchemas) => forallb (@guarded number rt) itemSchemas
     | None => true
     end
  && match properties schema with
     | Some props => forallb (fun entry => guarded (snd entry)) props
     | None => true
     end.
Proof. destruct schema; reflexivity. Qed.

Lemma flatMapFrom_returns (A B : Type) (f : nat -> A -> Result (list B)) l :
  (forall idx item, In item l -> returns (f idx item)) ->
  forall idx, returns (flatMapFrom f idx l).
Proof.
  induction l as [|item rest IH]; intros Hf idx; simpl.
  - now eexists.
  - destruct (Hf idx item (or_introl eq_refl)) as [here ->].
    destruct (IH (fun i a Ha => Hf i a (or_intror Ha)) (S idx)) as [there ->].
    now eexists.
Qed.

Lemma stringIssues_returns path schema text :
  compiles (pattern schema) = true -> returns (stringIssues path schema text).
Proof.
  unfold compiles, stringIssues.
  destruct (pattern schema) as [source|]; [|now eexists].
  destruct (RegExp source); [now eexists | discriminate].
Qed.

Lemma validateWithPath_returns schema :
  guarded schema = true ->
  forall path value, returns (validateWithPath path schema value).
Proof.
  induction schema as [schema IHitem IHitems IHprops] using Schema_induction.
  rewrite guarded_unfold. intros Hguarded.
  apply andb_prop in Hguarded. destruct Hguarded as [Hguarded Hbelow].
  apply andb_prop in Hguarded. destruct Hguarded as [Hguarded Hitems].
  apply andb_prop in Hguarded. destruct Hguarded as [Hpattern Hobject].
  intros path value. rewrite validateWithPath_unfold.
  destruct (negb (isSchemaType schema)); [now eexists|].
  destruct (isBooleanType schema); [now eexists|].
  destruct (isNullType schema); [now eexists|].
  destruct (isNumberType schema); [destruct value; now eexists|].
  destruct (isStringType schema).
  { destruct value; try now eexists. now apply stringIssues_returns. }
  destruct (isUndefinedType schema); [now eexists|].
  destruct (isArrayType schema).
  { destruct value; try now eexists.
    apply flatMapFrom_returns. intros idx item _.
    destruct (items schema) as [[itemSchema|many]|]; try now eexists.
    now apply (IHitem itemSchema). }
  destruct (isTupleType schema).
  { destruct value; try now eexists.
    destruct (items schema) as [[itemSchema|many]|]; try now eexists.
    destruct (negb _); [now eexists|].
    apply flatMapFrom_returns. intros idx item _. unfold validateRead.
    destruct (nth_error many idx) as [itemSchema|] eqn:E; [|now eexists].
    specialize (IHitems many eq_refl). rewrite Forall_forall in IHitems.
    apply IHitems; [now apply nth_error_In with idx|].
    rewrite forallb_forall in Hitems. apply Hitems.
    now apply nth_error_In with idx. }
  destruct (isObjectType schema); [|now eexists].
  destruct value; try now eexists.
  unfold hasProperties in Hobject.
  destruct (properties schema) as [props|]; [|discriminate].
  cbv zeta.
  match goal with
  | |- returns (bind ?r _) => assert (Hchildren : returns r)
  end.
  { apply flatMapFrom_returns. intros idx key _.
    destruct (has _ key); [|now eexists]. unfold validateRead.
    destruct (get key props) as [propSchema|] eqn:E; [|now eexists].
    apply get_In in E. destruct E as [k Hin].
    specialize (IHprops props eq_refl). rewrite Forall_forall in IHprops.
    apply (IHprops _ Hin). rewrite forallb_forall in Hbelow.
    apply (Hbelow _ Hin). }
  destruct Hchildren as [children ->]. now eexists.
Qed.

(** C2 (amended).  The validator has no exception handler, so what it
    calls decides: it returns a list of issues for every value when the
    schema is [guarded], that is when every [pattern] under the tag
    [string] is accepted by the [RegExp] constructor and the tag [object]
    always comes with a [properties] map, in the schema and below it; a
    string schema whose pattern the constructor rejects throws the
    SyntaxError of the constructor on every string value. *)
Theorem validate_returns_or_raises :
  (forall schema,
     guarded schema = true ->
     forall value, exists issues, validate schema value = Return issues) /\
  (forall schema source text,
     isStringType schema = true ->
     pattern schema = Some source ->
     RegExp source = None ->
     validate schema (VString text) = Throw SyntaxError).
Proof.
  split.
  - intros schema Hguarded value. now apply validateWithPath_returns.
  - intros schema source text Hstring Hpattern Hrejected.
    assert (Htag := isString_true _ _ Hstring).
    unfold validate. rewrite validateWithPath_unfold.
    unfold isSchemaType, isBooleanType, isNullType, isNumberType, isStringType.
    rewrite Htag. cbn -[stringIssues]. unfold stringIssues.
    now rewrite Hpattern, Hrejected.
Qed.

(** ** Modifiers *)

(** C3 (the code departs from the claim).  [optional] marks a copy made
    with an object spread, and the spread leaves the non-enumerable
    markers behind: marking twice keeps OPTIONAL, but [optional] applied to
    a readonly schema loses READONLY. *)
Theorem optional_drops_readonly S :
  isOptional (T_optional (T_optional S)) = true /\
  isOptional (T_optional (T_readonly S)) = true /\
  isReadonly (T_optional (T_readonly S)) = false.
Proof. repeat split. Qed.

(** C10.  A marker changes neither the variant predicates nor validation:
    [optional(S)] and [readonly(S)] validate every value as [S] does, with
    the same issues or the same exception. *)
Theorem validate_modifier_transparent S value :
  validate (T_optional S) value = validate S value /\
  validate (T_readonly S) value = validate S value /\
  variantPredicates (T_optional S) = variantPredicates S /\
  variantPredicates (T_readonly S) = variantPredicates S /\
  isSchemaType (T_optional S) = isSchemaType S /\
  isSchemaType (T_readonly S) = isSchemaType S.
Proof.
  unfold validate, T_optional, T_readonly.
  rewrite validateWithPath_defineOPTIONAL, validateWithPath_defineREADONLY.
  rewrite validateWithPath_spread.
  repeat split.
Qed.

End Properties.

(** * Further properties of the code *)

Section Coverage.

Context {number : Type} {ops : NumberOps number} {rt : Runtime number}.

Implicit Types (schema S : Schema number) (value v : Value number).
Implicit Types (path prefix : string) (issues : list ValidationIssue).

(** ** Strings *)

Lemma append_assoc (a b c : string) : (a +++ b) +++ c = a +++ b +++ c.
Proof. induction a as [|ch a IH]; simpl; [reflexivity | now rewrite IH]. Qed.

Lemma append_nil_r (a : string) : a +++ "" = a.
Proof. induction a as [|ch a IH]; simpl; [reflexivity | now rewrite IH]. Qed.

Lemma append_empty (a b : string) : a +++ b = "" -> a = "" /\ b = "".
Proof. destruct a; simpl; [auto | discriminate]. Qed.

Lemma join_cons sep (line : string) (lines : list string) :
  lines <> [] -> join sep (line :: lines) = line +++ sep +++ join sep lines.
Proof. destruct lines; [congruence | reflexivity]. Qed.

Lemma join_app sep (front back : list string) :
  front <> [] -> back <> [] ->
  join sep (front ++ back) = join sep front +++ sep +++ join sep back.
Proof.
  induction front as [|line rest IH]; intros Hfront Hback; [congruence|].
  destruct rest as [|next rest].
  - simpl app. now rewrite join_cons.
  - change ((line :: next :: rest) ++ back) with (line :: ((next :: rest) ++ back)).
    rewrite join_cons by discriminate.
    rewrite IH by (assumption || discriminate).
    rewrite (join_cons sep line (lines := next :: rest)) by discriminate.
    now rewrite !append_assoc.
Qed.

(** ** Formatting *)

Lemma formatIssue_nonempty (issue : ValidationIssue) : formatIssue issue <> "".
Proof.
  unfold formatIssue. intros E.
  apply append_empty in E. destruct E as [_ E]. discriminate E.
Qed.

Lemma formatIssues_cons_nonempty (issue : ValidationIssue) rest :
  formatIssues (issue :: rest) <> "".
Proof.
  unfold formatIssues. simpl map. intros E.
  destruct (map formatIssue rest) as [|line lines] eqn:Hrest.
  - now apply (formatIssue_nonempty issue).
  - rewrite join_cons in E by discriminate.
    apply append_empty in E. destruct E as [E _].
    now apply (formatIssue_nonempty issue).
Qed.

(** X2.  The formatted text is empty for the empty list only: a thrown
    validation error never has an empty message. *)
Theorem formatIssues_empty issues : formatIssues issues = "" <-> issues = [].
Proof.
  split; [|intros ->; reflexivity].
  destruct issues as [|issue rest]; [reflexivity|].
  intros E. now apply formatIssues_cons_nonempty in E.
Qed.

(** X3.  Formatting goes issue by issue: the text of two lists one after
    the other is the two texts with a line break in between, and the text
    of one issue is its message followed by its path. *)
Theorem formatIssues_app (front back : list ValidationIssue) :
  formatIssues [] = "" /\
  (forall issue,
     formatIssues [issue] =
     Issue.message issue +++ " (at " +++ Issue.path issue +++ ")") /\
  (front <> [] -> back <> [] ->
   formatIssues (front ++ back) =
   formatIssues front +++ newline +++ formatIssues back).
Proof.
  repeat split.
  intros Hfront Hback. unfold formatIssues. rewrite map_app.
  apply join_app.
  - destruct front; [congruence | discriminate].
  - destruct back; [congruence | discriminate].
Qed.

(** ** [is] and [validateOrThrow] *)

(** X1.  The three entry points agree.  [is] answers true exactly when
    [validate] returns no issue, and [validateOrThrow] ends normally in
    exactly that case; on a non-empty list of issues it throws one
    TypeError whose message is the non-empty text of all the issues; an
    exception of [validate] escapes from both. *)
Theorem entry_points_agree schema value :
  (is_ schema value = Return true <-> validate schema value = Return []) /\
  (validateOrThrow schema value = Normal tt <->
   is_ schema value = Return true) /\
  (forall issues,
     validate schema value = Return issues -> issues <> [] ->
     is_ schema value = Return false /\
     validateOrThrow schema value = ThrownTypeError (formatIssues issues) /\
     formatIssues issues <> "") /\
  (forall e,
     validate schema value = Throw e ->
     is_ schema value = Throw e /\ validateOrThrow schema value = Escaped e).
Proof.
  unfold is_, validateOrThrow.
  destruct (validate schema value) as [[|issue rest]|e]; simpl.
  - split; [|split; [|split]].
    + split; reflexivity.
    + split; reflexivity.
    + intros found E Hfound. injection E as <-. congruence.
    + intros e E. discriminate E.
  - split; [|split; [|split]].
    + split; discriminate.
    + split; discriminate.
    + intros found E _. injection E as <-.
      split; [reflexivity|]. split; [reflexivity|].
      apply formatIssues_cons_nonempty.
    + intros e E. discriminate E.
  - split; [|split; [|split]].
    + split; discriminate.
    + split; discriminate.
    + intros found E. discriminate E.
    + intros e' E. injection E as <-. split; reflexivity.
Qed.

(** ** Paths *)

Lemma index_prefix prefix path idx :
  index (prefix +++ path) idx = prefix +++ index path idx.
Proof. unfold index. apply append_assoc. Qed.

Lemma child_prefix prefix path key :
  child (prefix +++ path) key = prefix +++ child path key.
Proof. unfold child. apply append_assoc. Qed.

Lemma check_prefix (c : option number) violated msg prefix path :
  check c violated msg (prefix +++ path) =
  map (under prefix) (check c violated msg path).
Proof.
  unfold check. destruct c as [bound|]; [|reflexivity].
  now destruct (violated bound).
Qed.

Lemma numberIssues_prefix prefix path schema (n : number) :
  numberIssues (prefix +++ path) schema n =
  map (under prefix) (numberIssues path schema n).
Proof.
  unfold numberIssues. rewrite !map_app, !check_prefix. reflexivity.
Qed.

Lemma stringIssues_prefix prefix path schema text :
  stringIssues (prefix +++ path) schema text =
  relocate prefix (stringIssues path schema text).
Proof.
  unfold stringIssues.
  destruct (pattern schema) as [source|]; simpl.
  - destruct (RegExp source) as [test|]; [|reflexivity]. simpl.
    rewrite !map_app, !check_prefix. now destruct (negb (test text)).
  - rewrite !map_app, !check_prefix. reflexivity.
Qed.

Lemma unexpectedKeys_prefix prefix path keys :
  unexpectedKeys (prefix +++ path) keys =
  map (under prefix) (unexpectedKeys path keys).
Proof. unfold unexpectedKeys. now destruct (0 <? length keys)%nat. Qed.

Lemma missingKeys_prefix prefix path keys :
  missingKeys (prefix +++ path) keys = map (under prefix) (missingKeys path keys).
Proof. unfold missingKeys. now destruct (0 <? length keys)%nat. Qed.

Lemma flatMapFrom_relocate (A : Type) prefix
  (f g : nat -> A -> Result (list ValidationIssue)) l :
  (forall idx item, In item l -> f idx item = relocate prefix (g idx item)) ->
  forall idx, flatMapFrom f idx l = relocate prefix (flatMapFrom g idx l).
Proof.
  induction l as [|item rest IH]; intros Hfg idx; simpl; [reflexivity|].
  rewrite (Hfg idx item (or_introl eq_refl)).
  rewrite (IH (fun i a Ha => Hfg i a (or_intror Ha)) (S idx)).
  destruct (g idx item) as [here|e]; [|reflexivity]. simpl.
  destruct (flatMapFrom g (S idx) rest) as [there|e]; [|reflexivity]. simpl.
  now rewrite map_app.
Qed.

Lemma validateRead_prefix_from prefix path (read : option (Schema number)) value :
  (forall schema, read = Some schema ->
     validateWithPath (prefix +++ path) schema value =
     relocate prefix (validateWithPath path schema value)) ->
  validateRead (prefix +++ path) read value =
  relocate prefix (validateRead path read value).
Proof.
  intros H. destruct read as [schema|]; simpl; [now apply H | reflexivity].
Qed.

Lemma validateWithPath_relocate schema :
  forall prefix path value,
    validateWithPath (prefix +++ path) schema value =
    relocate prefix (validateWithPath path schema value).
Proof.
  induction schema as [schema IHitem IHitems IHprops] using Schema_induction.
  intros prefix path value.
  rewrite (validateWithPath_unfold (prefix +++ path)).
  rewrite (validateWithPath_unfold path).
  destruct (negb (isSchemaType schema)); [reflexivity|].
  destruct (isBooleanType schema).
  { now destruct (String.eqb (typeof value) "boolean"). }
  destruct (isNullType schema); [now destruct value|].
  destruct (isNumberType schema).
  { destruct value; try reflexivity. simpl. now rewrite numberIssues_prefix. }
  destruct (isStringType schema).
  { destruct value; try reflexivity. apply stringIssues_prefix. }
  destruct (isUndefinedType schema).
  { now destruct (String.eqb (typeof value) "undefined"). }
  destruct (isArrayType schema).
  { destruct value; try reflexivity.
    apply flatMapFrom_relocate. intros idx item _. rewrite index_prefix.
    destruct (items schema) as [[itemSchema|many]|]; try reflexivity.
    now apply IHitem. }
  destruct (isTupleType schema).
  { destruct value; try reflexivity.
    destruct (items schema) as [[itemSchema|many]|] eqn:Hitems; try reflexivity.
    destruct (negb _); [reflexivity|].
    apply flatMapFrom_relocate. intros idx item _. rewrite index_prefix.
    apply validateRead_prefix_from. intros itemSchema E.
    specialize (IHitems many eq_refl). rewrite Forall_forall in IHitems.
    apply IHitems. now apply nth_error_In with idx. }
  destruct (isObjectType schema); [|reflexivity].
  destruct value; try reflexivity.
  destruct (properties schema) as [props|] eqn:Hprops; [|reflexivity].
  cbv zeta.
  rewrite unexpectedKeys_prefix, missingKeys_prefix.
  match goal with
  | |- bind (flatMap ?f ?keys) _ = relocate _ (bind (flatMap ?g _) _) =>
      assert (Hchildren : flatMap f keys = relocate prefix (flatMap g keys))
  end.
  { apply flatMapFrom_relocate. intros idx key _.
    destruct (has _ key); [|reflexivity]. rewrite child_prefix.
    apply validateRead_prefix_from. intros propSchema E.
    apply get_In in E. destruct E as [k Hin].
    specialize (IHprops props eq_refl). rewrite Forall_forall in IHprops.
    apply (IHprops _ Hin). }
  rewrite Hchildren.
  match goal with
  | |- context [flatMap ?g ?keys] => destruct (flatMap g keys) as [children|e]
  end; [|reflexivity].
  simpl. now rewrite !map_app.
Qed.

Lemma relocate_empty prefix (r : Result (list ValidationIssue)) :
  relocate prefix r = Return [] <-> r = Return [].
Proof.
  destruct r as [[|issue rest]|e]; simpl; split; congruence.
Qed.

Lemma validateWithPath_root path schema value :
  validateWithPath path schema value = relocate path (validate schema value).
Proof.
  unfold validate. rewrite <- validateWithPath_relocate.
  now rewrite append_nil_r.
Qed.

(** X4.  The path is a prefix and nothing more: validation at a path is
    validation at the root with that path put in front of the path of
    every issue; the kinds, the messages, the order and an exception do
    not depend on it, and neither does whether a value passes. *)
Theorem validate_path_is_prefix schema value prefix path :
  validateWithPath (prefix +++ path) schema value =
    relocate prefix (validateWithPath path schema value) /\
  validateWithPath path schema value = relocate path (validate schema value) /\
  (validateWithPath path schema value = Return [] <->
   validate schema value = Return []).
Proof.
  split; [apply validateWithPath_relocate|].
  split; [apply validateWithPath_root|].
  rewrite validateWithPath_root. apply relocate_empty.
Qed.

(** ** Values that pass *)

Lemma pair_empty (first second : Result (list ValidationIssue)) :
  (here <- first ;; there <- second ;; Return (here ++ there)) = Return [] <->
  first = Return [] /\ second = Return [].
Proof.
  destruct first as [[|i here]|e]; destruct second as [[|j there]|e'];
    simpl; split; try discriminate; try (intros [? ?]; discriminate);
    intuition congruence.
Qed.

Lemma flatMapFrom_empty (A : Type) (f : nat -> A -> Result (list ValidationIssue))
  (P : A -> Prop) l :
  (forall idx item, In item l -> (f idx item = Return [] <-> P item)) ->
  forall idx, flatMapFrom f idx l = Return [] <-> Forall P l.
Proof.
  induction l as [|item rest IH]; intros Hf idx; simpl.
  - split; [constructor | reflexivity].
  - rewrite pair_empty, (Hf idx item (or_introl eq_refl)).
    rewrite (IH (fun i a Ha => Hf i a (or_intror Ha)) (S idx)).
    split; [intros [? ?]; now constructor | intros H; now inversion H].
Qed.


Lemma validateRead_empty path (s : Schema number) value :
  validateRead path (Some s) value = Return [] <-> validate s value = Return [].
Proof. simpl. rewrite validateWithPath_root. apply relocate_empty. Qed.

(** X5.  The five primitive schemas without constraints accept exactly
    the values of their type: [boolean()] the booleans, [null()] the value
    [null], [undefined()] the value [undefined], [number()] every number,
    [string()] every string. *)
Theorem primitive_schemas_accept_their_type value :
  (validate T_boolean value = Return [] <-> typeof value = "boolean") /\
  (validate T_null value = Return [] <-> value = VNull) /\
  (validate T_undefined value = Return [] <-> value = VUndefined) /\
  (validate (T_number noNumberOptions) value = Return [] <->
   typeof value = "number") /\
  (validate (T_string noStringOptions) value = Return [] <->
   typeof value = "string").
Proof.
  repeat split; destruct value; simpl; intros H;
    reflexivity || discriminate H.
Qed.

(** X6.  An array passes an array schema exactly when each of its
    elements passes the item schema; the empty array passes whatever the
    item schema is; a value that is not an array gets the one INVALID_TYPE
    issue. *)
Theorem array_valid_elementwise S (elements : list (Value number)) :
  (validate (T_array S) (VArray elements) = Return [] <->
   forall item, In item elements -> validate S item = Return []) /\
  validate (T_array S) (VArray []) = Return [] /\
  (forall value,
     (forall l, value <> VArray l) ->
     validate (T_array S) value = Return [invalidTypeIssue "array" value ""]).
Proof.
  split; [|split].
  - rewrite <- Forall_forall.
    change (validate (T_array S) (VArray elements))
      with (flatMapFrom (fun idx item => validateWithPath (index "" idx) S item)
                        0 elements).
    apply flatMapFrom_empty. intros idx item _.
    rewrite validateWithPath_root. apply relocate_empty.
  - reflexivity.
  - intros value Hvalue. destruct value as [| | | | | | | |l|]; try reflexivity.
    now elim (Hvalue l).
Qed.


(** ** Objects that pass *)

Lemma listing_empty path label keys : listing path label keys = [] <-> keys = [].
Proof. destruct keys; simpl; split; congruence. Qed.

Lemma filter_empty (A : Type) (test : A -> bool) (l : list A) :
  filter test l = [] <-> forall a, In a l -> test a = false.
Proof.
  induction l as [|a rest IH]; simpl.
  - split; [intros _ a [] | reflexivity].
  - destruct (test a) eqn:E.
    + split; [discriminate|]. intros H. specialize (H a (or_introl eq_refl)).
      congruence.
    + rewrite IH. split.
      * intros H b [<-|Hb]; [exact E | now apply H].
      * intros H b Hb. apply H. now right.
Qed.

Lemma object_result_empty (children : Result (list ValidationIssue))
  (extra missing : list ValidationIssue) :
  (found <- children ;; Return (extra ++ missing ++ found)) = Return [] <->
  extra = [] /\ missing = [] /\ children = Return [].
Proof.
  destruct children as [found|e]; simpl.
  - split.
    + intros E. injection E as E. apply app_eq_nil in E. destruct E as [-> E].
      apply app_eq_nil in E. destruct E as [-> ->]. now repeat split.
    + intros [-> [-> E]]. injection E as ->. reflexivity.
  - split; [discriminate | intros [_ [_ E]]; discriminate E].
Qed.

(** X8.  A true object passes a schema with a [properties] map exactly
    when every key of the value is declared and its member passes the
    declared schema, and every required key is a key of the value. *)
Theorem object_valid_keywise path schema props
  (entries : list (string * Value number)) :
  isObjectType schema = true ->
  properties schema = Some props ->
  let requiredKeys := match required schema with Some r => r | None => [] end in
  validateWithPath path schema (VObject entries) = Return [] <->
  (forall key,
     In key (keysOf entries) ->
     exists propSchema,
       get key props = Some propSchema /\
       validate propSchema (member entries key) = Return []) /\
  (forall key, In key requiredKeys -> In key (keysOf entries)).
Proof.
  intros Hobject Hprops requiredKeys.
  rewrite (validate_object path _ entries Hobject Hprops).
  fold requiredKeys. rewrite object_result_empty, !listing_empty.
  unfold extraKeysOf, missingKeysOf, recurse, declaredKeysOf, flatMap.
  rewrite !filter_empty.
  rewrite (flatMapFrom_empty
             (fun _ key => validateRead (child path key) (get key props)
                                        (member entries key))
             (fun key => validateRead "" (get key props) (member entries key)
                         = Return [])).
  2:{ intros _ key _. destruct (get key props) as [propSchema|]; simpl.
      - rewrite validateWithPath_root, relocate_empty. reflexivity.
      - split; discriminate. }
  rewrite Forall_forall. split.
  - intros [Hextra [Hmissing Hchildren]]. split.
    + intros key Hin. apply In_newSet in Hin.
      assert (Hdeclared : has (keysOf props) key = true).
      { specialize (Hextra key Hin). now apply negb_false_iff in Hextra. }
      assert (Hd := Hdeclared). apply has_In, get_declared in Hd.
      destruct Hd as [propSchema E]. exists propSchema. split; [exact E|].
      specialize (Hchildren key). rewrite filter_In, E in Hchildren.
      apply validateRead_empty. now apply Hchildren.
    + intros key Hin. apply In_newSet in Hin.
      specialize (Hmissing key Hin). apply negb_false_iff in Hmissing.
      now apply has_In.
  - intros [Hkeys Hrequired]. repeat split.
    + intros key Hin. apply -> In_newSet in Hin.
      destruct (Hkeys key Hin) as [propSchema [E _]].
      apply negb_false_iff, has_In, get_declared. now exists propSchema.
    + intros key Hin. apply -> In_newSet in Hin.
      apply negb_false_iff, has_In. now apply Hrequired.
    + intros key Hin. apply filter_In in Hin. destruct Hin as [Hin _].
      apply -> In_newSet in Hin. destruct (Hkeys key Hin) as [propSchema [E Hvalid]].
      rewrite E. now apply validateRead_empty.
Qed.

Lemma required_of_distinct (props : list (string * Schema number)) :
  NoDup (keysOf props) ->
  filter (fun key => negb (T_marked props key)) (keysOf props) =
  keysOf (filter (fun entry => negb (isOptional (snd entry))) props).
Proof.
  unfold keysOf.
  induction props as [|[k prop] rest IH]; intros Hnd; [reflexivity|].
  simpl in Hnd. inversion Hnd as [|? ? Hfresh Hrest]; subst.
  assert (Hext : forall key, In key (map fst rest) ->
                   T_marked ((k, prop) :: rest) key = T_marked rest key).
  { intros key Hin. unfold T_marked. simpl.
    destruct (String.eqb_spec key k) as [->|_]; [contradiction | reflexivity]. }
  simpl. unfold T_marked at 1. simpl. rewrite String.eqb_refl.
  unfold isOptional in *.
  rewrite (filter_ext_in _ (fun key => negb (T_marked rest key)))
    by (intros key Hin; now rewrite Hext).
  rewrite (IH Hrest). now destruct (OPTIONAL prop).
Qed.

(** X9.  The empty object against [object(P)], for [P] with distinct
    keys: the result is the one issue that lists, in the order of [P], the
    keys whose schema is not marked optional, and no issue at all when
    every property is optional. *)
Theorem object_empty_value (props : list (string * Schema number)) path :
  NoDup (keysOf props) ->
  let requiredKeys :=
    keysOf (filter (fun entry => negb (isOptional (snd entry))) props) in
  validateWithPath path (T_object props) (VObject []) =
    Return (listing path "Missing required keys: " requiredKeys) /\
  (validateWithPath path (T_object props) (VObject []) = Return [] <->
   forall key prop, In (key, prop) props -> isOptional prop = true).
Proof.
  intros Hnd requiredKeys.
  assert (Hresult :
    validateWithPath path (T_object props) (VObject []) =
    Return (listing path "Missing required keys: " requiredKeys)).
  { rewrite (validate_object path (T_object props) (props := props) []
               eq_refl eq_refl).
    unfold recurse, declaredKeysOf, extraKeysOf, missingKeysOf. simpl.
    assert (Hall : forall l : list string, filter (fun _ => true) l = l).
    { induction l as [|a l IHl]; simpl; [reflexivity | now rewrite IHl]. }
    rewrite Hall, app_nil_r.
    unfold requiredKeys. rewrite <- (required_of_distinct props Hnd).
    set (stored := filter (fun key => negb (T_marked props key)) (keysOf props)).
    assert (Hstored :
      match (if (0 <? length stored)%nat then Some stored else None) with
      | Some r => r
      | None => []
      end = stored) by now destruct stored.
    rewrite Hstored. f_equal. f_equal. apply newSet_NoDup_id.
    now apply NoDup_filter. }
  split; [exact Hresult|].
  rewrite Hresult. split.
  - intros E. injection E as E. apply listing_empty in E.
    intros key prop Hin. unfold requiredKeys, keysOf in E.
    apply map_eq_nil in E. rewrite filter_empty in E.
    specialize (E (key, prop) Hin). now apply negb_false_iff in E.
  - intros Hall. f_equal. apply listing_empty. unfold requiredKeys, keysOf.
    replace (filter _ props) with (@nil (string * Schema number)); [reflexivity|].
    symmetry. apply filter_empty. intros [key prop] Hin.
    apply negb_false_iff. now apply (Hall key prop).
Qed.

(** ** Strings against a string schema *)


(** ** Schemas of the declared type *)

(** Induction on a schema with all the schemas below it, the one under
    [additionalProperties] too. *)
Lemma Schema_induction_all (P : Schema number -> Prop) :
  (forall schema,
     (forall itemSchema, items schema = Some (inl itemSchema) -> P itemSchema) ->
     (forall itemSchemas, items schema = Some (inr itemSchemas) ->
                          Forall P itemSchemas) ->
     (forall valueSchema, additionalProperties schema = Some valueSchema ->
                          P valueSchema) ->
     (forall props, properties schema = Some props ->
                    Forall (fun entry => P (snd entry)) props) ->
     P schema) ->
  forall schema, P schema.
Proof.
  intros step. fix IH 1.
  intros [tag m1 m2 m3 m4 m5 l1 l2 pat its extra props req o r].
  apply step; simpl.
  - intros itemSchema E. destruct its as [[single|many]|]; try discriminate.
    injection E as <-. apply IH.
  - intros itemSchemas E. destruct its as [[single|many]|]; try discriminate.
    injection E as <-. clear -IH.
    induction many as [|first rest IHrest]; constructor; [apply IH | exact IHrest].
  - intros valueSchema E. destruct extra as [below|]; try discriminate.
    injection E as <-. apply IH.
  - intros declared E. destruct props as [entries|]; try discriminate.
    injection E as <-. clear -IH.
    induction entries as [|[key prop] rest IHrest]; constructor;
      [apply IH | exact IHrest].
Qed.

Lemma typed_unfold schema :
  typed schema =
  match type schema with
  | Some (VString tag) =>
      if primitiveTag tag then true
      else if String.eqb tag "array" then
        match items schema with
        | Some (inl itemSchema) => typed itemSchema
        | Some (inr itemSchemas) => forallb (@typed number) itemSchemas
        | None => false
        end
      else if String.eqb tag "object" then
        match additionalProperties schema, properties schema with
        | None, None => false
        | below, props =>
            match below with
            | Some valueSchema => typed valueSchema
            | None => true
            end
            && match props with
               | Some declared => forallb (fun entry => typed (snd entry)) declared
               | None => true
               end
        end
      else false
  | _ => false
  end.
Proof. destruct schema; reflexivity. Qed.

Lemma asCode_unfold schema :
  asCode schema =
  if negb (isSchemaType schema) then Throw (PlainError "Invalid schema")
  else if isBooleanType schema then Return "boolean"
  else if isNullType schema then Return "null"
  else if isNumberType schema then Return "number"
  else if isStringType schema then Return "string"
  else if isUndefinedType schema then Return "undefined"
  else if isArrayType schema then
    inner <- match items schema with
             | Some (inl itemSchema) => asCode itemSchema
             | _ => Throw (PlainError "Invalid schema")
             end ;;
    Return ("Array<" +++ inner +++ ">")
  else if isTupleType schema then
    match items schema with
    | Some (inr itemSchemas) =>
        codes <- mapM (@asCode number) itemSchemas ;;
        Return ("[" +++ join ", " codes +++ "]")
    | _ => Return "[]"
    end
  else if isRecordType schema then
    inner <- match additionalProperties schema with
             | Some valueSchema => asCode valueSchema
             | None => Throw (PlainError "Invalid schema")
             end ;;
    Return ("Record<string, " +++ inner +++ ">")
  else if isObjectType schema then
    match properties schema with
    | None => Throw TypeError
    | Some props =>
        let requiredProps :=
          newSet (match required schema with Some r => r | None => [] end) in
        let readonlyProps :=
          newSet (keysOf (filter (fun entry => isReadonly (snd entry)) props)) in
        rendered <-
          mapM (fun key =>
                  code <- match get key props with
                          | Some propSchema => asCode propSchema
                          | None => Throw (PlainError "Invalid schema")
                          end ;;
                  Return ((if has readonlyProps key then "readonly " else "")
                          +++ key
                          +++ (if has requiredProps key then "" else "?")
                          +++ ": " +++ code))
               (keysOf props) ;;
        Return ("{" +++ join "; " rendered +++ "}")
    end
  else Throw (PlainError "Not implemented").
Proof.
  destruct schema as [tag m1 m2 m3 m4 m5 l1 l2 pat its extra declared req o r].
  simpl.
  repeat match goal with
         | |- context [if ?b then _ else _] => destruct b; try reflexivity
         end.
  destruct declared as [props|]; [|reflexivity].
  f_equal. clear. induction (keysOf props) as [|key rest IH]; [reflexivity|].
  simpl. rewrite getWith_get, IH. reflexivity.
Qed.

Lemma mapM_returns (A B : Type) (f : A -> Result B) (l : list A) :
  (forall a, In a l -> returns (f a)) -> returns (mapM f l).
Proof.
  induction l as [|a rest IH]; intros Hf; simpl; [now eexists|].
  destruct (Hf a (or_introl eq_refl)) as [b ->].
  destruct (IH (fun x Hx => Hf x (or_intror Hx))) as [bs ->].
  now eexists.
Qed.

Lemma bind_returns (A B : Type) (r : Result A) (k : A -> Result B) :
  returns r -> (forall a, returns (k a)) -> returns (bind r k).
Proof. intros [a ->] Hk. apply Hk. Qed.

(** Case analysis on a tag: one case for each variant name, one for the
    other strings. *)
Ltac by_tag tag :=
  let split_on name :=
    (destruct (String.eqb_spec tag name) as [->|?]) in
  split_on "boolean"; [|
  split_on "null"; [|
  split_on "number"; [|
  split_on "string"; [|
  split_on "undefined"; [|
  split_on "array"; [|
  split_on "object"]]]]]].

(** X11.  The renderer returns a text, and throws nothing, for every
    schema of the declared type, whatever its constraints and markers. *)
Theorem asCode_returns_on_typed schema :
  typed schema = true -> exists code, asCode schema = Return code.
Proof.
  change (typed schema = true -> returns (asCode schema)).
  induction schema as [schema IHitem IHitems IHbelow IHprops]
    using Schema_induction_all.
  rewrite typed_unfold, asCode_unfold.
  unfold isSchemaType, isBooleanType, isNullType, isNumberType, isStringType,
    isUndefinedType, isArrayType, isTupleType, isRecordType, isObjectType,
    itemsIsArray, primitiveTag, has.
  destruct (type schema) as [[| | | |tag| | | | |]|]; try discriminate.
  simpl. by_tag tag; simpl; try (intros _; now eexists); try discriminate.
  - destruct (items schema) as [[itemSchema|itemSchemas]|]; simpl;
      try discriminate; intros Htyped.
    + apply bind_returns; [now apply IHitem | intros; now eexists].
    + apply bind_returns; [|intros; now eexists].
      apply mapM_returns. intros s Hin.
      specialize (IHitems itemSchemas eq_refl). rewrite Forall_forall in IHitems.
      apply (IHitems s Hin). rewrite forallb_forall in Htyped. now apply Htyped.
  - destruct (additionalProperties schema) as [valueSchema|]; simpl.
    + intros Htyped. apply andb_prop in Htyped. destruct Htyped as [Hbelow _].
      apply bind_returns; [now apply IHbelow | intros; now eexists].
    + destruct (properties schema) as [props|]; [|discriminate].
      simpl. intros Htyped.
      apply bind_returns; [|intros; now eexists].
      apply mapM_returns. intros key Hin.
      apply get_declared in Hin. destruct Hin as [propSchema E]. rewrite E.
      apply bind_returns; [|intros; now eexists].
      destruct (get_In _ _ E) as [k Hk].
      specialize (IHprops props eq_refl). rewrite Forall_forall in IHprops.
      apply (IHprops _ Hk). rewrite forallb_forall in Htyped.
      apply (Htyped _ Hk).
Qed.

Lemma check_blamesValue (c : option number) violated msg path :
  blamesValue (check c violated msg path).
Proof.
  unfold blamesValue, check. destruct c as [bound|]; [|constructor].
  destruct (violated bound); repeat constructor. discriminate.
Qed.

Lemma blamesValue_app front back :
  blamesValue front -> blamesValue back -> blamesValue (front ++ back).
Proof. unfold blamesValue. intros. apply Forall_app. now split. Qed.

Lemma blamesValue_one kind message path :
  kind <> INVALID_SCHEMA -> blamesValue [Issue.mk kind message path].
Proof. intros H. repeat constructor. exact H. Qed.

Lemma flatMapFrom_blamesValue (A : Type)
  (f : nat -> A -> Result (list ValidationIssue)) l :
  forall i,
    (forall k item found,
       nth_error l k = Some item -> f (i + k)%nat item = Return found ->
       blamesValue found) ->
    forall issues, flatMapFrom f i l = Return issues -> blamesValue issues.
Proof.
  induction l as [|item rest IH]; intros i Hf issues; simpl.
  - intros E. injection E as <-. constructor.
  - destruct (f i item) as [here|e] eqn:Hhere; [|discriminate]. simpl.
    destruct (flatMapFrom f (S i) rest) as [there|e] eqn:Hthere; [|discriminate].
    simpl. intros E. injection E as <-. apply blamesValue_app.
    + apply (Hf 0%nat item here eq_refl). now rewrite Nat.add_0_r.
    + apply (IH (S i)); [|exact Hthere]. intros k a found Hk Ha.
      apply (Hf (S k) a found Hk). now rewrite Nat.add_succ_r.
Qed.

(** X12.  Against a schema of the declared type no issue is
    INVALID_SCHEMA: whatever the value, every issue that validation
    returns is INVALID_TYPE or INVALID_VALUE. *)
Theorem typed_schema_blames_value schema :
  typed schema = true ->
  forall path value issues,
    validateWithPath path schema value = Return issues ->
    Forall (fun issue => Issue.type issue = INVALID_TYPE \/
                         Issue.type issue = INVALID_VALUE) issues.
Proof.
  intros Htyped path value issues Hissues.
  assert (Hblames : blamesValue issues).
  { revert Htyped path value issues Hissues.
    induction schema as [schema IHitem IHitems IHprops] using Schema_induction.
    rewrite typed_unfold. intros Htyped path value issues.
    rewrite validateWithPath_unfold.
    unfold isSchemaType, isBooleanType, isNullType, isNumberType, isStringType,
      isUndefinedType, isArrayType, isTupleType, isObjectType, itemsIsArray.
    unfold primitiveTag, has in Htyped.
    destruct (type schema) as [[| | | |tag| | | | |]|]; try discriminate.
    revert Htyped. simpl. by_tag tag; simpl; intros Htyped; try discriminate.
    - destruct (String.eqb (typeof value) "boolean"); intros E;
        injection E as <-; [constructor | now apply blamesValue_one].
    - destruct value; intros E; injection E as <-;
        first [now apply blamesValue_one | constructor].
    - destruct value; intros E; injection E as <-;
        try now apply blamesValue_one.
      unfold numberIssues.
      repeat apply blamesValue_app; apply check_blamesValue.
    - destruct value; try (intros E; injection E as <-; now apply blamesValue_one).
      unfold stringIssues.
      destruct (pattern schema) as [source|].
      + destruct (RegExp source) as [test|]; [|discriminate].
        intros E. injection E as <-.
        repeat apply blamesValue_app; try apply check_blamesValue.
        destruct (negb (test s)); [now apply blamesValue_one | constructor].
      + intros E. injection E as <-.
        repeat apply blamesValue_app; apply check_blamesValue.
    - destruct (String.eqb (typeof value) "undefined"); intros E;
        injection E as <-; [constructor | now apply blamesValue_one].
    - destruct (items schema) as [[itemSchema|itemSchemas]|]; simpl;
        try discriminate.
      + destruct value; try (intros E; injection E as <-; now apply blamesValue_one).
        apply flatMapFrom_blamesValue. intros k item found _ Hfound.
        now apply (IHitem itemSchema eq_refl Htyped _ _ _ Hfound).
      + destruct value as [| | | | | | | |elements|];
          try (intros E; injection E as <-; now apply blamesValue_one).
        destruct (Nat.eqb_spec (length elements) (length itemSchemas))
          as [Hlen|Hlen]; simpl;
          [|intros E; injection E as <-; now apply blamesValue_one].
        apply flatMapFrom_blamesValue. intros k item found Hk Hfound.
        simpl in Hfound.
        destruct (nth_error itemSchemas k) as [itemSchema|] eqn:Hitem.
        * specialize (IHitems itemSchemas eq_refl).
          rewrite Forall_forall in IHitems. apply nth_error_In in Hitem.
          eapply (IHitems itemSchema Hitem); [|exact Hfound].
          rewrite forallb_forall in Htyped. now apply Htyped.
        * apply nth_error_None in Hitem.
          assert (k < length elements)%nat
            by (apply nth_error_Some; congruence).
          lia.
    - destruct value as [| | | | | | | | |entries];
        try (intros E; injection E as <-; now apply blamesValue_one).
      destruct (properties schema) as [props|]; [|discriminate].
      cbv zeta.
      match goal with
      | |- bind ?r _ = _ -> _ => destruct r as [children|e] eqn:Hchildren
      end; [|discriminate].
      simpl. intros E. injection E as <-.
      assert (Hbelow : forallb (fun entry => typed (snd entry)) props = true).
      { destruct (additionalProperties schema); [|exact Htyped].
        apply andb_prop in Htyped. now destruct Htyped. }
      repeat apply blamesValue_app.
      + unfold unexpectedKeys. destruct (0 <? _)%nat;
          [now apply blamesValue_one | constructor].
      + unfold missingKeys. destruct (0 <? _)%nat;
          [now apply blamesValue_one | constructor].
      + revert Hchildren. apply flatMapFrom_blamesValue.
        intros k key found _.
        destruct (has _ key) eqn:Hdeclared;
          [|intros E; injection E as <-; constructor].
        rewrite has_newSet in Hdeclared.
        apply has_In, get_declared in Hdeclared.
        destruct Hdeclared as [propSchema Hget]. rewrite Hget. simpl.
        destruct (get_In _ _ Hget) as [k' Hin].
        specialize (IHprops props eq_refl). rewrite Forall_forall in IHprops.
        apply (IHprops _ Hin). rewrite forallb_forall in Hbelow.
        apply (Hbelow _ Hin). }
  unfold blamesValue in Hblames. rewrite Forall_forall in *.
  intros issue Hin. specialize (Hblames issue Hin).
  destruct (Issue.type issue); [congruence | now left | now right].
Qed.

(** X13.  What the renderer throws on a schema it cannot render: an
    Error "Invalid schema" when [type] is absent or not a string, or when
    an array schema has no [items]; an Error "Not implemented" when the
    tag is a string that names no variant; the TypeError of
    [Object.entries] when the tag is [object] and neither
    [additionalProperties] nor [properties] is there. *)
Theorem asCode_throws schema :
  (isSchemaType schema = false ->
   asCode schema = Throw (PlainError "Invalid schema")) /\
  (forall tag,
     type schema = Some (VString tag) -> knownTag tag = false ->
     asCode schema = Throw (PlainError "Not implemented")) /\
  (type schema = Some (VString "array") -> items schema = None ->
   asCode schema = Throw (PlainError "Invalid schema")) /\
  (type schema = Some (VString "object") ->
   additionalProperties schema = None -> properties schema = None ->
   asCode schema = Throw TypeError).
Proof.
  rewrite asCode_unfold. repeat split.
  - intros ->. reflexivity.
  - intros tag Htag Hunknown. apply unknown_tag in Hunknown.
    destruct Hunknown as (Hb & Hn & Hnum & Hstr & Hu & Ha & Ho).
    unfold isSchemaType, isBooleanType, isNullType, isNumberType, isStringType,
      isUndefinedType, isArrayType, isTupleType, isRecordType, isObjectType.
    rewrite Htag. simpl. now rewrite Hb, Hn, Hnum, Hstr, Hu, Ha, Ho.
  - intros Htag Hitems.
    unfold isSchemaType, isBooleanType, isNullType, isNumberType, isStringType,
      isUndefinedType, isArrayType, itemsIsArray.
    rewrite Htag, Hitems. reflexivity.
  - intros Htag Hbelow Hprops.
    unfold isSchemaType, isBooleanType, isNullType, isNumberType, isStringType,
      isUndefinedType, isArrayType, isTupleType, isRecordType, isObjectType.
    rewrite Htag, Hbelow, Hprops. reflexivity.
Qed.

(** X14.  The builders make schemas of the declared type out of schemas
    of the declared type, and the two markers keep a schema in the type;
    [any()] is the one builder whose result is not of the type. *)
Theorem builders_typed :
  typed (@T_boolean number) = true /\ typed (@T_null number) = true /\
  typed (@T_undefined number) = true /\ typed (@T_any number) = false /\
  (forall options : NumberOptions number, typed (T_number options) = true) /\
  (forall options : StringOptions number, typed (T_string options) = true) /\
  (forall S, typed (T_array S) = typed S) /\
  (forall S, typed (T_record S) = typed S) /\
  (forall S, typed (T_optional S) = typed S) /\
  (forall S, typed (T_readonly S) = typed S) /\
  (forall itemSchemas : list (Schema number),
     typed (T_tuple itemSchemas) = true <->
     forall s, In s itemSchemas -> typed s = true) /\
  (forall props : list (string * Schema number),
     typed (T_object props) = true <->
     forall key prop, In (key, prop) props -> typed prop = true).
Proof.
  repeat split; try reflexivity.
  - intros S. simpl. now rewrite andb_true_r.
  - intros S. destruct S; reflexivity.
  - intros S. destruct S; reflexivity.
  - simpl. rewrite forallb_forall. auto.
  - simpl. rewrite forallb_forall. auto.
  - simpl. rewrite forallb_forall. intros H key prop Hin. apply (H _ Hin).
  - simpl. rewrite forallb_forall. intros H [key prop] Hin. apply (H _ _ Hin).
Qed.

End Coverage.

(** * The statements on the examples *)

Example validate_person_ok :
  validate person (VObject [("a", VNumber (Int 1))]) = Return [].
Proof. reflexivity. Qed.

Example validate_person_extra :
  validate person (VObject [("a", VNumber (Int 1)); ("c", VBoolean true)]) =
  Return [Issue.mk INVALID_TYPE "Unexpected keys: c" ""].
Proof. reflexivity. Qed.

Example validate_person_extra_and_missing :
  validate person (VObject [("c", VBoolean true)]) =
  Return [Issue.mk INVALID_TYPE "Unexpected keys: c" "";
          Issue.mk INVALID_TYPE "Missing required keys: a" ""].
Proof. reflexivity. Qed.

Example validate_tuple_arity :
  validate (T_tuple [plainNumber; patterned "abc"]) (VArray [VNumber (Int 1)]) =
  Return [Issue.mk INVALID_TYPE "Expected 2 elements, got 1 elements instead" ""].
Proof. reflexivity. Qed.

Example validate_tuple_swapped :
  validate (T_tuple [plainNumber; patterned "abc"])
           (VArray [VString "a"; VNumber (Int 1)]) =
  Return [Issue.mk INVALID_TYPE "Invalid type, expected number, got 'a'" "/0";
          Issue.mk INVALID_TYPE "Invalid type, expected string, got 1" "/1"].
Proof. reflexivity. Qed.

Example validate_bounded_two_issues :
  validate bounded (VNumber (Int (-1000))) =
  Return [Issue.mk INVALID_VALUE "Value must be a multiple of 3" "";
          Issue.mk INVALID_VALUE
            "Value must be greater than or equal to 0, instead was -1000" ""].
Proof. reflexivity. Qed.

(** The renderer tests [isRecordType] before [isObjectType] and renders a
    record; it shows which marker a property ends up with. *)
Example asCode_record :
  asCode (T_record (@T_boolean Integer)) = Return "Record<string, boolean>".
Proof. reflexivity. Qed.

Example asCode_person :
  asCode person = Return "{a: number; b?: string}".
Proof. reflexivity. Qed.

Example asCode_optional_readonly :
  asCode (T_object [("a", T_optional (T_readonly plainNumber));
                    ("b", T_readonly (T_optional plainNumber))]) =
  Return "{a?: number; readonly b: number}".
Proof. reflexivity. Qed.

(** C2, the claim as written fails: the pattern [(] is rejected by the
    [RegExp] constructor, and validating a string against it throws. *)
Lemma validate_raises_on_rejected_pattern :
  validate (patterned "(") (VString "a") = Throw SyntaxError /\
  ~ (forall (schema : Schema Integer) (value : Value Integer),
       exists issues, validate schema value = Return issues).
Proof.
  split; [reflexivity|].
  intros H. destruct (H (patterned "(") (VString "a")) as [issues E].
  discriminate E.
Qed.

Lemma validate_returns_or_raises_witness :
  (exists issues,
     validate person (VObject [("a", VNumber (Int 1)); ("b", VString "xabcx")])
     = Return issues) /\
  validate (patterned "(") (VString "a") = Throw SyntaxError.
Proof.
  split.
  - apply (proj1 validate_returns_or_raises). reflexivity.
  - apply (proj2 validate_returns_or_raises) with (source := "("); reflexivity.
Defined.

Lemma validate_record_throws_witness :
  validate (T_record (@T_boolean Integer)) (VObject [("a", VBoolean true)]) =
  Throw TypeError.
Proof.
  apply (validate_record_throws (T_record T_boolean) (C := T_boolean)
           [("a", VBoolean true)] "" eq_refl eq_refl eq_refl).
Defined.

(** C4, the claim as written fails: [{type: 'bogus'}] is accepted by
    [isSchemaType] and no variant predicate holds; on [record(boolean())]
    both [isRecordType] and [isObjectType] hold. *)
Lemma variant_predicates_not_exclusive :
  isSchemaType bogus = true /\ variantCount bogus = 0%nat /\
  isSchemaType (T_record (@T_boolean Integer)) = true /\
  isRecordType (T_record (@T_boolean Integer)) = true /\
  isObjectType (T_record (@T_boolean Integer)) = true /\
  variantCount (T_record (@T_boolean Integer)) = 2%nat.
Proof. repeat split. Qed.

Lemma variant_predicates_by_tag_witness :
  isSchemaType person = true /\ variantCount person = 1%nat /\
  isSchemaType bogus = true /\ variantCount bogus = 0%nat.
Proof.
  split; [reflexivity|].
  split.
  - destruct (variant_predicates_by_tag person eq_refl) as [tag [E [Hknown _]]].
    injection E as <-. apply Hknown; reflexivity.
  - split; [reflexivity|].
    destruct (variant_predicates_by_tag bogus eq_refl) as [tag [E [_ Hunknown]]].
    injection E as <-. apply Hunknown; reflexivity.
Defined.

(** C5, the claim as written fails: [{type: 'bogus'}] carries a tag that is
    no variant name, and [isSchemaType] accepts it. *)
Lemma isSchemaType_bogus :
  knownTag "bogus" = false /\ isSchemaType bogus = true.
Proof. split; reflexivity. Qed.

Lemma isSchemaType_accepts_any_string_witness :
  isSchemaType (@T_any Integer) = false /\
  isSchemaType bogus = true /\
  validateWithPath "/a" bogus (VNumber (Int 1)) = Return [fallback "/a"].
Proof.
  split.
  - apply (proj1 (isSchemaType_accepts_any_string T_any)).
    intros tag E. discriminate E.
  - destruct (proj2 (isSchemaType_accepts_any_string bogus) "bogus"
                eq_refl eq_refl) as [Haccepted Hfallback].
    split; [exact Haccepted | apply Hfallback].
Defined.

Lemma number_constraints_independent_witness :
  (exists multiple above aboveExclusive below belowExclusive,
     validateWithPath "/n" bounded (VNumber (Int (-1000))) =
       Return (multiple ++ above ++ aboveExclusive ++ below ++ belowExclusive) /\
     length multiple = 1%nat /\ above = [] /\ aboveExclusive = [] /\
     length below = 1%nat /\ belowExclusive = []) /\
  validateWithPath "/n" bounded (VString "7") =
    Return [invalidTypeIssue "number" (VString "7") "/n"].
Proof.
  destruct (number_constraints_independent bounded "/n" eq_refl)
    as [Hnumeric Hother].
  split.
  - destruct (Hnumeric (Int (-1000)))
      as (multiple & above & aboveExclusive & below & belowExclusive
          & E & H1 & H2 & H3 & H4 & H5 & _).
    exists multiple, above, aboveExclusive, below, belowExclusive.
    split; [exact E|].
    destruct H1 as [m1 ->]. destruct H4 as [m4 ->].
    repeat split; assumption.
  - apply (Hother (VString "7")). discriminate.
Defined.

Lemma validate_object_with_properties_witness :
  validateWithPath "" person (VObject [("c", VBoolean true); ("a", VString "x")]) =
  Return [Issue.mk INVALID_TYPE "Unexpected keys: c" "";
          Issue.mk INVALID_TYPE "Invalid type, expected number, got 'x'" "/a"].
Proof.
  destruct (@validate_object_with_properties Integer _ _ "" person
              [("a", plainNumber); ("b", T_optional (patterned "abc"))]
              [("c", VBoolean true); ("a", VString "x")] eq_refl eq_refl)
    as [E _].
  rewrite E. reflexivity.
Defined.

Lemma object_required_set_witness :
  required person = Some ["a"] /\
  keysOf (filter (fun entry => negb (isOptional (snd entry)))
                 [("a", plainNumber); ("b", T_optional (patterned "abc"))]) = ["a"] /\
  required allOptional = None /\
  validateWithPath "" allOptional (VObject []) = Return [].
Proof.
  split; [|split; [|split]].
  - apply (proj1 (object_required_set
                    [("a", plainNumber); ("b", T_optional (patterned "abc"))])).
  - symmetry.
    apply (proj1 (proj2 (proj2 (object_required_set
                    [("a", plainNumber); ("b", T_optional (patterned "abc"))])))).
    repeat constructor; simpl; intuition discriminate.
  - apply (proj1 (object_required_set [("b", T_optional (patterned "abc"))])).
  - destruct (proj2 (proj2 (proj2 (object_required_set
                                     [("b", T_optional (patterned "abc"))])))
                allOptional [("b", T_optional (patterned "abc"))] "" []
                eq_refl eq_refl eq_refl) as [_ E].
    rewrite E. reflexivity.
Defined.

(** * The further statements on the examples *)

Definition twoIssues : list ValidationIssue :=
  [Issue.mk INVALID_TYPE "Unexpected keys: c" "";
   Issue.mk INVALID_TYPE "Missing required keys: a" ""].

Lemma entry_points_agree_witness :
  is_ person (VObject [("a", VNumber (Int 1))]) = Return true /\
  validateOrThrow person (VObject [("a", VNumber (Int 1))]) = Normal tt /\
  is_ person (VObject [("c", VBoolean true)]) = Return false /\
  validateOrThrow person (VObject [("c", VBoolean true)]) =
    ThrownTypeError (formatIssues twoIssues) /\
  validateOrThrow (patterned "(") (VString "a") = Escaped SyntaxError.
Proof.
  destruct (entry_points_agree person (VObject [("a", VNumber (Int 1))]))
    as [Hpass [Hnormal _]].
  destruct (entry_points_agree person (VObject [("c", VBoolean true)]))
    as [_ [_ [Hfail _]]].
  destruct (entry_points_agree (patterned "(") (VString "a"))
    as [_ [_ [_ Hescape]]].
  assert (Htrue := proj2 Hpass eq_refl).
  split; [exact Htrue|].
  split; [exact (proj2 Hnormal Htrue)|].
  destruct (Hfail twoIssues eq_refl) as [Hfalse [Hthrown _]]; [discriminate|].
  split; [exact Hfalse|]. split; [exact Hthrown|].
  exact (proj2 (Hescape SyntaxError eq_refl)).
Defined.

Lemma formatIssues_empty_witness :
  formatIssues [] = "" /\ formatIssues twoIssues <> "".
Proof.
  split.
  - apply (proj2 (formatIssues_empty [])). reflexivity.
  - intros E. apply (proj1 (formatIssues_empty twoIssues)) in E. discriminate E.
Defined.

Lemma formatIssues_app_witness :
  formatIssues twoIssues =
  "Unexpected keys: c (at )" +++ newline +++ "Missing required keys: a (at )".
Proof.
  apply (proj2 (proj2 (formatIssues_app
                         [Issue.mk INVALID_TYPE "Unexpected keys: c" ""]
                         [Issue.mk INVALID_TYPE "Missing required keys: a" ""])));
    discriminate.
Defined.

Lemma validate_path_is_prefix_witness :
  validateWithPath "/list/0" plainNumber (VString "x") =
    Return [Issue.mk INVALID_TYPE "Invalid type, expected number, got 'x'" "/list/0"] /\
  validateWithPath "/list/0" plainNumber (VNumber (Int 4)) = Return [].
Proof.
  destruct (validate_path_is_prefix plainNumber (VString "x") "/list" "/0")
    as [Hprefix _].
  destruct (validate_path_is_prefix plainNumber (VNumber (Int 4)) "" "/list/0")
    as [_ [_ Hpass]].
  split; [exact Hprefix | exact (proj2 Hpass eq_refl)].
Defined.

Lemma primitive_schemas_accept_their_type_witness :
  validate (@T_boolean Integer) (VBoolean true) = Return [] /\
  validate (@T_null Integer) VNull = Return [] /\
  validate plainNumber (VNumber (Int 7)) = Return [] /\
  validate plainNumber (VString "7") <> Return [].
Proof.
  destruct (primitive_schemas_accept_their_type (VBoolean true)) as [Hb _].
  destruct (primitive_schemas_accept_their_type (@VNull Integer))
    as [_ [Hn _]].
  destruct (primitive_schemas_accept_their_type (VNumber (Int 7)))
    as [_ [_ [_ [Hnum _]]]].
  destruct (primitive_schemas_accept_their_type (@VString Integer "7"))
    as [_ [_ [_ [Hstr _]]]].
  split; [exact (proj2 Hb eq_refl)|].
  split; [exact (proj2 Hn eq_refl)|].
  split; [exact (proj2 Hnum eq_refl)|].
  intros E. apply (proj1 Hstr) in E. discriminate E.
Defined.

Lemma array_valid_elementwise_witness :
  validate (T_array plainNumber) (VArray [VNumber (Int 1); VNumber (Int 2)]) =
    Return [] /\
  validate (T_array (@T_any Integer)) (VArray []) = Return [] /\
  validate (T_array plainNumber) (VString "x") =
    Return [invalidTypeIssue "array" (VString "x") ""].
Proof.
  destruct (array_valid_elementwise plainNumber
              [VNumber (Int 1); VNumber (Int 2)]) as [Hall [_ Hother]].
  destruct (array_valid_elementwise (@T_any Integer) []) as [_ [Hempty _]].
  split; [|split; [exact Hempty|]].
  - apply (proj2 Hall). intros item [<-|[<-|[]]]; reflexivity.
  - apply Hother. intros l E. discriminate E.
Defined.


Lemma object_valid_keywise_witness :
  validateWithPath "/p" person
    (VObject [("a", VNumber (Int 1)); ("b", VString "abc")]) = Return [].
Proof.
  apply (proj2 (@object_valid_keywise Integer _ _ "/p" person
                  [("a", plainNumber); ("b", T_optional (patterned "abc"))]
                  [("a", VNumber (Int 1)); ("b", VString "abc")]
                  eq_refl eq_refl)).
  split.
  - intros key [<-|[<-|[]]].
    + exists plainNumber. split; reflexivity.
    + exists (T_optional (patterned "abc")). split; reflexivity.
  - intros key [<-|[]]. now left.
Defined.

Lemma object_empty_value_witness :
  validateWithPath "" person (VObject []) =
    Return [Issue.mk INVALID_TYPE "Missing required keys: a" ""] /\
  validateWithPath "" allOptional (VObject []) = Return [].
Proof.
  assert (Hperson : NoDup (keysOf [("a", plainNumber);
                                   ("b", T_optional (patterned "abc"))])).
  { repeat constructor; simpl; intuition discriminate. }
  assert (Hall : NoDup (keysOf [("b", T_optional (patterned "abc"))])).
  { repeat constructor; simpl; intuition. }
  split.
  - exact (proj1 (object_empty_value _ "" Hperson)).
  - apply (proj2 (object_empty_value _ "" Hall)).
    intros key prop [E|[]]. injection E as _ <-. reflexivity.
Defined.



Lemma asCode_returns_on_typed_witness :
  exists code,
    asCode (T_object [("a", T_array plainNumber);
                      ("b", T_optional (T_record (patterned "(")))]) = Return code.
Proof.
  apply asCode_returns_on_typed. reflexivity.
Defined.

Lemma typed_schema_blames_value_witness :
  Forall (fun issue => Issue.type issue = INVALID_TYPE \/
                       Issue.type issue = INVALID_VALUE)
         [Issue.mk INVALID_TYPE "Unexpected keys: c" "";
          Issue.mk INVALID_TYPE "Invalid type, expected number, got 'x'" "/a"].
Proof.
  apply (@typed_schema_blames_value Integer _ _ person eq_refl ""
           (VObject [("c", VBoolean true); ("a", VString "x")])).
  reflexivity.
Defined.

Lemma asCode_throws_witness :
  asCode (@T_any Integer) = Throw (PlainError "Invalid schema") /\
  asCode bogus = Throw (PlainError "Not implemented").
Proof.
  split.
  - apply (proj1 (asCode_throws T_any)). reflexivity.
  - apply (proj1 (proj2 (asCode_throws bogus)) "bogus"); reflexivity.
Defined.

Lemma builders_typed_witness :
  typed (T_tuple [plainNumber; patterned "abc"]) = true /\
  typed person = true.
Proof.
  destruct (@builders_typed Integer)
    as (_ & _ & _ & _ & _ & _ & _ & _ & _ & _ & Htuple & Hobject).
  split.
  - apply (proj2 (Htuple [plainNumber; patterned "abc"])).
    intros s [<-|[<-|[]]]; reflexivity.
  - apply (proj2 (Hobject
                    [("a", plainNumber); ("b", T_optional (patterned "abc"))])).
    intros key prop [E|[E|[]]]; injection E as _ <-; reflexivity.
Defined.
